(** * Shinju: the tree walker and its content matcher

    A shallow embedding of [shinju.py]: [is_binary_file], [search_file],
    [format_entry] and [walk_tree], with the properties of the walk.

    Modelling choices.
    - A Python [str] is a [string]; a character is a code point below 256,
      on which [str.lower], [str.strip] and the IGNORECASE comparison of a
      literal are the ones written out in [PyStr].  The box-drawing
      constants are kept as the bytes of their UTF-8 encoding.
    - A Python [int] is a [Z].
    - The file system is a finite tree of [node]s, read once: a file with
      the bytes [open] gives (or none, when [open] fails), a directory
      with the children [iterdir] gives in its own order (or none, when
      it raises [PermissionError]).
    - The [re] module and the text layer of [open] are not code of this
      program: regex-mode compilation and matching, and the decoding of a
      file into lines, are the fields of a [Runtime] that every function
      and theorem takes.  A pattern compiled from [re.escape] is a literal,
      and is modelled in full.
    - Exceptions are the [Raise] results of an error monad. *)

From Stdlib Require Import ZArith List Bool Ascii String Lia.
From Stdlib Require Import Sorting.Sorted Sorting.Permutation.
From Stdlib Require Import DecimalString.
From Stdlib Require Import Init.Byte.
Import ListNotations.

Open Scope string_scope.
Open Scope Z_scope.

(** ** Exceptions *)

Inductive exn :=
| ReError              (* re.error, from re.compile *)
| PermissionError      (* an OSError *)
| NotADirectoryError   (* an OSError: iterdir on what is no directory *)
| OSError.             (* any other OSError, IOError being the same class *)

Definition is_os_error (e : exn) : bool :=
  match e with
  | ReError => false
  | _ => true
  end.

Inductive result (A : Type) :=
| Ok (a : A)
| Raise (e : exn).

Arguments Ok {A} a.
Arguments Raise {A} e.

Definition bind {A B : Type} (m : result A) (k : A -> result B) : result B :=
  match m with
  | Ok a => k a
  | Raise e => Raise e
  end.

Notation "x <- m ;; k" := (bind m (fun x => k))
  (at level 61, m at next level, right associativity).
Notation "' p <- m ;; k" := (bind m (fun x => let p := x in k))
  (at level 61, p pattern, m at next level, right associativity).

(** ** Python strings *)

Module PyStr.

Definition len (s : string) : Z := Z.of_nat (String.length s).

(** [str.lower] on one character: A-Z, and the capital letters of Latin-1
    (0xC0-0xDE but the multiplication sign 0xD7). *)
Definition lower_char (c : ascii) : ascii :=
  let n := N_of_ascii c in
  if ((65 <=? n) && (n <=? 90))%N then ascii_of_N (n + 32)
  else if ((192 <=? n) && (n <=? 222) && negb (n =? 215))%N then ascii_of_N (n + 32)
  else c.

Fixpoint lower (s : string) : string :=
  match s with
  | EmptyString => EmptyString
  | String c s' => String (lower_char c) (lower s')
  end.

(** [str.isspace] on one character. *)
Definition is_space (c : ascii) : bool :=
  let n := N_of_ascii c in
  (((9 <=? n) && (n <=? 13)) || ((28 <=? n) && (n <=? 32))
   || (n =? 133) || (n =? 160))%N.

Fixpoint lstrip (s : string) : string :=
  match s with
  | EmptyString => EmptyString
  | String c s' => if is_space c then lstrip s' else s
  end.

Fixpoint rstrip (s : string) : string :=
  match s with
  | EmptyString => EmptyString
  | String c s' =>
      match rstrip s' with
      | EmptyString => if is_space c then EmptyString else String c EmptyString
      | r => String c r
      end
  end.

(** [s.strip()] *)
Definition strip (s : string) : string := rstrip (lstrip s).

(** [s.lstrip(".")] *)
Fixpoint lstrip_dot (s : string) : string :=
  match s with
  | String "."%char s' => lstrip_dot s'
  | _ => s
  end.

(** [s.startswith(".")] *)
Definition startswith_dot (s : string) : bool :=
  match s with
  | String "."%char _ => true
  | _ => false
  end.

(** [s.split(",")]: every comma separates, empty pieces are kept. *)
Fixpoint split_comma (s : string) : list string :=
  match s with
  | EmptyString => [EmptyString]
  | String c s' =>
      if Ascii.eqb c ","%char then EmptyString :: split_comma s'
      else match split_comma s' with
           | h :: t => String c h :: t
           | [] => [String c EmptyString]
           end
  end.

(** [s[:n]] and [s[n:]] for [n >= 0]. *)
Fixpoint take (n : nat) (s : string) : string :=
  match n, s with
  | S n', String c s' => String c (take n' s')
  | _, _ => EmptyString
  end.

Fixpoint drop (n : nat) (s : string) : string :=
  match n, s with
  | S n', String _ s' => drop n' s'
  | _, _ => s
  end.

(** [s.rfind(".")]: the index of the last dot, or -1. *)
Fixpoint rfind_dot_from (i : Z) (found : Z) (s : string) : Z :=
  match s with
  | EmptyString => found
  | String c s' =>
      rfind_dot_from (i + 1) (if Ascii.eqb c "."%char then i else found) s'
  end.

Definition rfind_dot (s : string) : Z := rfind_dot_from 0 (-1) s.

(** The truth value of a string: non-empty. *)
Definition truthy (s : string) : bool :=
  match s with
  | EmptyString => false
  | _ => true
  end.

(** The decimal text of an integer, as an f-string prints it. *)
Definition of_int (z : Z) : string := NilZero.string_of_int (Z.to_int z).

End PyStr.

(** ** Constants of the program *)

Module Colors.
Definition ESC : string := String (ascii_of_nat 27) EmptyString.
Definition RESET : string := ESC ++ "[0m".
Definition BOLD : string := ESC ++ "[1m".
Definition MAGENTA : string := ESC ++ "[35m".
Definition CYAN : string := ESC ++ "[36m".
Definition YELLOW : string := ESC ++ "[33m".
Definition GREEN : string := ESC ++ "[32m".
Definition BLUE : string := ESC ++ "[34m".
Definition DIM : string := ESC ++ "[2m".
Definition RED : string := ESC ++ "[31m".
End Colors.

Definition BRANCH : string := "├── ".
Definition LAST_BRANCH : string := "└── ".
Definition PIPE : string := "│   ".
Definition SPACE : string := "    ".

Definition EXCLUDE_EXTENSIONS : list string :=
  ["gz"; "zip"; "tar"; "rar"; "7z"; "bz2"; "xz";
   "deb"; "img"; "iso"; "vmdk"; "dll"; "ovf"; "ova"].

Definition str_in (x : string) (l : list string) : bool :=
  existsb (String.eqb x) l.

(** ** The file system *)

Unset Elimination Schemes.
Inductive node :=
| File (name : string) (data : option (list byte))
| Dir (name : string) (listing : option (list node)).
Set Elimination Schemes.

(** Induction on a tree: a listing holds for its children. *)
Fixpoint node_ind (P : node -> Prop)
    (HFile : forall name data, P (File name data))
    (HDenied : forall name, P (Dir name None))
    (HDir : forall name children, Forall P children -> P (Dir name (Some children)))
    (e : node) {struct e} : P e :=
  match e with
  | File name data => HFile name data
  | Dir name None => HDenied name
  | Dir name (Some children) =>
      HDir name children
        ((fix all (l : list node) : Forall P l :=
            match l with
            | [] => Forall_nil P
            | c :: l' => Forall_cons c (node_ind P HFile HDenied HDir c) (all l')
            end) children)
  end.

(** [entry.name] *)
Definition node_name (e : node) : string :=
  match e with
  | File n _ => n
  | Dir n _ => n
  end.

(** [entry.is_dir()] *)
Definition is_dir (e : node) : bool :=
  match e with
  | File _ _ => false
  | Dir _ _ => true
  end.

(** [open(filepath, ...)] and reading all of it; opening a directory, or a
    file that cannot be read, raises an OSError. *)
Definition open_read (e : node) : result (list byte) :=
  match e with
  | File _ (Some d) => Ok d
  | File _ None => Raise PermissionError
  | Dir _ _ => Raise OSError
  end.

(** [directory.iterdir()] *)
Definition iterdir (e : node) : result (list node) :=
  match e with
  | Dir _ (Some children) => Ok children
  | Dir _ None => Raise PermissionError
  | File _ _ => Raise NotADirectoryError
  end.

(** [filepath.suffix]: the name from its last dot on, when that dot is
    neither the first nor the last character. *)
Definition suffix (e : node) : string :=
  let name := node_name e in
  let i := PyStr.rfind_dot name in
  if (0 <? i) && (i <? PyStr.len name - 1) then PyStr.drop (Z.to_nat i) name
  else EmptyString.

(** ** Literal patterns: what [re.compile(re.escape(p), flags)] matches *)

Module Literal.

(** A character of the subject against a character of the keyword. *)
Definition norm (ic : bool) (c : ascii) : ascii :=
  if ic then PyStr.lower_char c else c.

Definition eqc (ic : bool) (a b : ascii) : bool :=
  Ascii.eqb (norm ic a) (norm ic b).

(** The keyword [k] matches at the start of [s]. *)
Fixpoint matches_at (ic : bool) (k s : string) : bool :=
  match k, s with
  | EmptyString, _ => true
  | String a k', String b s' => eqc ic a b && matches_at ic k' s'
  | String _ _, EmptyString => false
  end.

(** [findall]: the scan from left to right; after a match the scan moves
    past it ([skip] characters are still to be passed over).  The empty
    keyword matches once before every character and once at the end. *)
Fixpoint scan (ic : bool) (k : string) (skip : nat) (s : string) : list string :=
  match s with
  | EmptyString =>
      match k with
      | EmptyString => [EmptyString]
      | _ => []
      end
  | String _ s' =>
      match skip with
      | S n => scan ic k n s'
      | O =>
          if matches_at ic k s
          then PyStr.take (String.length k) s
                 :: scan ic k (String.length k - 1) s'
          else scan ic k O s'
      end
  end.

Definition findall (ic : bool) (k s : string) : list string := scan ic k 0 s.

(** [search]: is there a match anywhere. *)
Fixpoint search (ic : bool) (k s : string) : bool :=
  matches_at ic k s ||
  match s with
  | EmptyString => false
  | String _ s' => search ic k s'
  end.

(** How often [k] occurs in [s], counting every position where it starts. *)
Fixpoint occurrences (ic : bool) (k s : string) : nat :=
  ((if matches_at ic k s then 1 else 0) +
   match s with
   | EmptyString => 0
   | String _ s' => occurrences ic k s'
   end)%nat.

(** No occurrence of [k] starts at one of the first [n] positions of [s]. *)
Fixpoint none_within (ic : bool) (k : string) (n : nat) (s : string) : bool :=
  match n, s with
  | S n', String _ s' => negb (matches_at ic k s) && none_within ic k n' s'
  | _, _ => true
  end.

(** The occurrences of [k] in [s] do not overlap. *)
Fixpoint apart (ic : bool) (k s : string) : bool :=
  match s with
  | EmptyString => true
  | String _ s' =>
      (if matches_at ic k s
       then none_within ic k (String.length k - 1) s' else true)
      && apart ic k s'
  end.

End Literal.

(** ** The configuration of a walk and its counters *)

Record Config := {
  show_hidden : bool;
  dirs_only : bool;
  max_depth : option Z;
  search_pattern : option string;
  name_pattern : option string;
  is_regex : bool;
  ignore_case : bool;
  match_only : bool
}.

Record Stats := {
  dirs : Z;
  files : Z;
  name_matches : Z;
  content_matches : Z
}.

Definition zero_stats : Stats :=
  {| dirs := 0; files := 0; name_matches := 0; content_matches := 0 |}.

(** The four [+=] of the merge. *)
Definition add_stats (a b : Stats) : Stats :=
  {| dirs := dirs a + dirs b;
     files := files a + files b;
     name_matches := name_matches a + name_matches b;
     content_matches := content_matches a + content_matches b |}.

(** [if pattern:] on an optional string: set and not empty. *)
Definition given (p : option string) : option string :=
  match p with
  | Some s => if PyStr.truthy s then Some s else None
  | None => None
  end.

Definition is_some {A : Type} (o : option A) : bool :=
  match o with
  | Some _ => true
  | None => false
  end.

(** ** [is_binary_file] *)

Definition is_binary_file (filepath : node) : bool :=
  match open_read filepath with
  | Ok data => existsb (Byte.eqb x00) (firstn 1024 data)
  | Raise _ => true
  end.

(** ** [format_entry] *)

Definition format_entry (name : string) (is_d : bool) (match_count : Z)
    (snippet : string) (name_matched search_active : bool) : string :=
  if name_matched && (0 <? match_count) then
    let suffix := if is_d then "/" else "" in
    Colors.GREEN ++ Colors.BOLD ++ name ++ suffix ++ Colors.RESET ++ " "
      ++ Colors.CYAN ++ snippet ++ Colors.RESET
  else if name_matched then
    let suffix := if is_d then "/" else "" in
    Colors.GREEN ++ Colors.BOLD ++ name ++ suffix ++ Colors.RESET ++ " "
      ++ Colors.YELLOW ++ "[match]" ++ Colors.RESET
  else if is_d then
    Colors.BLUE ++ Colors.BOLD ++ name ++ "/" ++ Colors.RESET
  else if 0 <? match_count then
    let match_text := if match_count =? 1 then "match" else "matches" in
    Colors.MAGENTA ++ Colors.BOLD ++ name ++ Colors.RESET ++ " "
      ++ Colors.YELLOW ++ "[" ++ PyStr.of_int match_count ++ " " ++ match_text
      ++ "]" ++ Colors.RESET ++ " "
      ++ Colors.CYAN ++ snippet ++ Colors.RESET
  else if search_active then
    Colors.DIM ++ name ++ Colors.RESET
  else name.

(** ** The order of [sorted]: a stable sort on the key
    [(not e.is_dir(), e.name.lower())] *)

Definition sort_key (e : node) : bool * string :=
  (negb (is_dir e), PyStr.lower (node_name e)).

(** [k1 <= k2] on such tuples: [False] before [True], then the strings,
    character by character. *)
Definition key_leb (k1 k2 : bool * string) : bool :=
  match fst k1, fst k2 with
  | false, true => true
  | true, false => false
  | _, _ => String.leb (snd k1) (snd k2)
  end.

Section Sorted.
Context {A : Type} (key : A -> bool * string).

(** An element goes before the first one whose key is not smaller: it came
    first in the input, so equal keys keep their order. *)
Fixpoint insert_by (x : A) (l : list A) : list A :=
  match l with
  | [] => [x]
  | y :: l' =>
      if key_leb (key x) (key y) then x :: l else y :: insert_by x l'
  end.

Fixpoint sorted_by (l : list A) : list A :=
  match l with
  | [] => []
  | x :: l' => insert_by x (sorted_by l')
  end.

(** [x] may come before [y]. *)
Definition key_le (x y : A) : Prop := key_leb (key x) (key y) = true.
End Sorted.

(** [enumerate(entries)] *)
Fixpoint enumerate_from {A : Type} (i : Z) (l : list A) : list (Z * A) :=
  match l with
  | [] => []
  | x :: l' => (i, x) :: enumerate_from (i + 1) l'
  end.

Definition enumerate {A : Type} (l : list A) : list (Z * A) := enumerate_from 0 l.

(** ** The [re] module and the text layer

    [regex] is a compiled regular expression; [re_compile p ic] is
    [re.compile(p, re.IGNORECASE if ic else 0)], [None] when it raises
    [re.error]; [re_findall] gives the text of each item of [findall],
    [re_search] whether [search] finds a match.  [readlines] is
    [f.readlines()] of a file opened with [encoding="utf-8"] and
    [errors="ignore"]: the lines of the decoded text. *)

Class Runtime := {
  regex : Type;
  re_compile : string -> bool -> option regex;
  re_findall : regex -> string -> list string;
  re_search : regex -> string -> bool;
  readlines : list byte -> list string
}.

(** ** The program *)

Section Shinju.

Context {rt : Runtime}.

Inductive Pattern :=
| Lit (ic : bool) (k : string)   (* re.compile(re.escape(k), flags) *)
| Rx (r : regex).                (* re.compile(p, flags) *)

(** [re.compile(p if is_regex else re.escape(p), flags)] *)
Definition compile (p : string) (is_rx ic : bool) : result Pattern :=
  if is_rx then
    match re_compile p ic with
    | Some r => Ok (Rx r)
    | None => Raise ReError
    end
  else Ok (Lit ic p).

Definition findall (c : Pattern) (s : string) : list string :=
  match c with
  | Lit ic k => Literal.findall ic k s
  | Rx r => re_findall r s
  end.

Definition search (c : Pattern) (s : string) : bool :=
  match c with
  | Lit ic k => Literal.search ic k s
  | Rx r => re_search r s
  end.

(** *** [search_file] *)

(** The patterns of a search: the whole pattern in regex mode, else its
    comma-separated keywords, stripped, the empty ones left out. *)
Definition keywords (pattern : string) (is_rx : bool) : list string :=
  if is_rx then [pattern]
  else map PyStr.strip
         (filter (fun p => PyStr.truthy (PyStr.strip p)) (PyStr.split_comma pattern)).

Fixpoint compile_all (ps : list string) (is_rx ic : bool) : result (list Pattern) :=
  match ps with
  | [] => Ok []
  | p :: ps' =>
      c <- compile p is_rx ic ;;
      cs <- compile_all ps' is_rx ic ;;
      Ok (c :: cs)
  end.

(** The snippet of the first match: the match and its line, stripped and
    cut at 50 characters. *)
Definition snippet_of (first_match line : string) : string :=
  let line_stripped := PyStr.strip line in
  let line_stripped :=
    if 50 <? PyStr.len line_stripped
    then PyStr.take 50 line_stripped ++ "..."
    else line_stripped in
  "['" ++ first_match ++ "' => '" ++ line_stripped ++ "']".

(** The body of the inner loop, on [(match_count, first_snippet)]. *)
Definition scan_pattern (line : string) (st : Z * string) (c : Pattern)
  : Z * string :=
  let '(match_count, first_snippet) := st in
  match findall c line with
  | [] => st
  | (first_match :: _) as matches =>
      (match_count + Z.of_nat (List.length matches),
       if PyStr.truthy first_snippet then first_snippet
       else snippet_of first_match line)
  end.

Definition scan_line (cs : list Pattern) (st : Z * string) (line : string)
  : Z * string :=
  fold_left (scan_pattern line) cs st.

Definition scan_lines (cs : list Pattern) (lines : list string) : Z * string :=
  fold_left (scan_line cs) lines (0, "").

(** The [try] block. *)
Definition search_body (filepath : node) (pattern : string) (is_rx ic : bool)
  : result (Z * string) :=
  data <- open_read filepath ;;
  let lines := readlines data in
  compiled_patterns <- compile_all (keywords pattern is_rx) is_rx ic ;;
  Ok (scan_lines compiled_patterns lines).

Definition search_file (filepath : node) (pattern : string) (is_rx ic : bool)
  : Z * string :=
  let ext := PyStr.lower (PyStr.lstrip_dot (suffix filepath)) in
  if str_in ext EXCLUDE_EXTENSIONS then (0, "")
  else if is_binary_file filepath then (0, "")
  else
    match search_body filepath pattern is_rx ic with
    | Ok r => r
    | Raise _ => (0, "")   (* except (IOError, OSError, re.error) *)
    end.

(** *** [walk_tree] *)

(** The recursive call on an entry, waiting for its prefix and depth. *)
Definition walker : Type := string -> Z -> result (list string * Stats).

(** The name search of one entry: whether the name matched. *)
Definition name_search (cfg : Config) (entry : node) : result bool :=
  match given (name_pattern cfg) with
  | Some p =>
      compiled <- compile p (is_regex cfg) (ignore_case cfg) ;;
      Ok (search compiled (node_name entry))
  | None => Ok false
  end.

(** The content search of one entry: [(match_count, snippet)]. *)
Definition content_search (cfg : Config) (entry : node) : Z * string :=
  match given (search_pattern cfg) with
  | Some p =>
      if negb (is_dir entry)
      then search_file entry p (is_regex cfg) (ignore_case cfg)
      else (0, "")
  | None => (0, "")
  end.

(** The two kinds of line: [f"{prefix}{branch}{formatted_name}"] and the
    notice of a listing that was refused. *)
Definition entry_line (prefix branch formatted_name : string) : string :=
  prefix ++ branch ++ formatted_name.

Definition denied_line (prefix : string) : string :=
  prefix ++ Colors.DIM ++ "[permission denied]" ++ Colors.RESET.

(** The body of the loop over the entries: [i] is the index of [entry],
    [n] the number of entries, [recurse] the walk of [entry]. *)
Definition visit (cfg : Config) (prefix : string) (current_depth n : Z)
    (acc : list string * Stats) (ie : Z * (node * walker))
  : result (list string * Stats) :=
  let '(lines, stats) := acc in
  let '(i, (entry, recurse)) := ie in
  let is_last := i =? n - 1 in
  let branch := if is_last then LAST_BRANCH else BRANCH in
  let next_prefix := prefix ++ (if is_last then SPACE else PIPE) in
  let is_d := is_dir entry in
  let stats :=
    if is_d
    then add_stats stats {| dirs := 1; files := 0; name_matches := 0; content_matches := 0 |}
    else add_stats stats {| dirs := 0; files := 1; name_matches := 0; content_matches := 0 |} in
  name_matched <- name_search cfg entry ;;
  let stats :=
    if name_matched
    then add_stats stats {| dirs := 0; files := 0; name_matches := 1; content_matches := 0 |}
    else stats in
  let '(match_count, snippet) := content_search cfg entry in
  let stats :=
    if 0 <? match_count
    then add_stats stats {| dirs := 0; files := 0; name_matches := 0; content_matches := 1 |}
    else stats in
  let formatted_name :=
    format_entry (node_name entry) is_d match_count snippet name_matched
      (is_some (search_pattern cfg) || is_some (name_pattern cfg)) in
  if is_d then
    '(sub_lines, sub_stats) <- recurse next_prefix (current_depth + 1) ;;
    let has_matches :=
      (0 <? name_matches sub_stats) || (0 <? content_matches sub_stats)
      || name_matched in
    let lines :=
      if negb (match_only cfg) || has_matches
      then ((lines ++ [entry_line prefix branch formatted_name]) ++ sub_lines)%list
      else lines in
    Ok (lines, add_stats stats sub_stats)
  else
    let has_match := name_matched || (0 <? match_count) in
    let lines :=
      if negb (match_only cfg) || has_match
      then (lines ++ [entry_line prefix branch formatted_name])%list
      else lines in
    Ok (lines, stats).

(** [for i, entry in enumerate(entries)] *)
Fixpoint for_each (cfg : Config) (prefix : string) (current_depth n : Z)
    (ies : list (Z * (node * walker))) (acc : list string * Stats)
  : result (list string * Stats) :=
  match ies with
  | [] => Ok acc
  | ie :: rest =>
      acc' <- visit cfg prefix current_depth n acc ie ;;
      for_each cfg prefix current_depth n rest acc'
  end.

(** The entries of a listing, sorted and then filtered; each comes with what
    it stands for. *)
Definition select {A : Type} (cfg : Config) (what : A -> node) (l : list A)
  : list A :=
  let entries := sorted_by (fun a => sort_key (what a)) l in
  let entries :=
    if negb (show_hidden cfg)
    then filter (fun a => negb (PyStr.startswith_dot (node_name (what a)))) entries
    else entries in
  if dirs_only cfg
  then filter (fun a => is_dir (what a)) entries
  else entries.

Definition depth_cut (cfg : Config) (current_depth : Z) : bool :=
  match max_depth cfg with
  | Some m => m <=? current_depth
  | None => false
  end.

(** [walk_tree].  The recursion is on the tree: each child of the listing
    is paired with its own walk before the listing is sorted and filtered,
    and the loop runs that walk where the program calls [walk_tree] on the
    entry. *)
Fixpoint walk_tree (cfg : Config) (directory : node) (prefix : string)
    (current_depth : Z) {struct directory} : result (list string * Stats) :=
  let lines := [] in
  let stats := zero_stats in
  if depth_cut cfg current_depth then Ok (lines, stats)
  else
    match directory with
    | Dir _ (Some children) =>
        let entries :=
          select cfg fst (map (fun e => (e, walk_tree cfg e)) children) in
        for_each cfg prefix current_depth (Z.of_nat (List.length entries))
          (enumerate entries) (lines, stats)
    | Dir _ None =>                                  (* except PermissionError *)
        Ok ((lines ++ [denied_line prefix])%list, stats)
    | File _ _ => Raise NotADirectoryError           (* iterdir raises *)
    end.

(** *** What a walk is to count, in the words of the specification *)

(** An entry that passes the two filters. *)
Definition shown (cfg : Config) (e : node) : bool :=
  (show_hidden cfg || negb (PyStr.startswith_dot (node_name e)))
  && (negb (dirs_only cfg) || is_dir e).

(** The entries a frame works on, in the order it works on them. *)
Definition entries (cfg : Config) (children : list node) : list node :=
  select cfg (fun e => e) children.

(** A child with its walk. *)
Definition with_walk (cfg : Config) (e : node) : node * walker :=
  (e, walk_tree cfg e).

(** The descendants of a directory that a walk started at [current_depth]
    reaches: the shown children of a listing that was read, and below each
    of them what a walk one level down reaches. *)
Fixpoint reachable (cfg : Config) (current_depth : Z) (d : node) {struct d}
  : list node :=
  if depth_cut cfg current_depth then []
  else
    match d with
    | Dir _ (Some children) =>
        flat_map
          (fun c =>
             if shown cfg c then c :: reachable cfg (current_depth + 1) c else [])
          children
    | _ => []
    end.


(** The name of the entry matches, the content of the entry matches. *)
Definition name_hit (cfg : Config) (e : node) : bool :=
  match name_search cfg e with
  | Ok b => b
  | Raise _ => false
  end.

Definition content_hit (cfg : Config) (e : node) : bool :=
  0 <? fst (content_search cfg e).

Definition count (P : node -> bool) (l : list node) : Z :=
  Z.of_nat (List.length (filter P l)).

(** The counters of a list of entries. *)
Definition tally (cfg : Config) (l : list node) : Stats :=
  {| dirs := count is_dir l;
     files := count (fun e => negb (is_dir e)) l;
     name_matches := count (name_hit cfg) l;
     content_matches := count (content_hit cfg) l |}.

(** What one entry adds to the counters of its frame. *)
Definition own_stats (is_d name_matched : bool) (match_count : Z) : Stats :=
  {| dirs := if is_d then 1 else 0;
     files := if is_d then 0 else 1;
     name_matches := if name_matched then 1 else 0;
     content_matches := if 0 <? match_count then 1 else 0 |}.

(** The glyph of an entry, the prefix of what is below it, its line. *)
Definition branch_of (i n : Z) : string :=
  if i =? n - 1 then LAST_BRANCH else BRANCH.

Definition next_prefix_of (prefix : string) (i n : Z) : string :=
  prefix ++ (if i =? n - 1 then SPACE else PIPE).

Definition line_for (cfg : Config) (prefix : string) (i n : Z) (e : node)
    (name_matched : bool) : string :=
  entry_line prefix (branch_of i n)
    (format_entry (node_name e) (is_dir e)
       (fst (content_search cfg e)) (snd (content_search cfg e)) name_matched
       (is_some (search_pattern cfg) || is_some (name_pattern cfg))).

(** Whether the line of an entry is put out: always without [match_only],
    else when the entry matched or, for a directory, when the counters
    [sub] of its walk show a match. *)
Definition emitted (cfg : Config) (name_matched : bool) (match_count : Z)
    (sub : Stats) : bool :=
  negb (match_only cfg)
  || (name_matched || (0 <? match_count)
      || (0 <? name_matches sub) || (0 <? content_matches sub)).

Definition sum_stats (l : list Stats) : Stats :=
  fold_right add_stats zero_stats l.

(** What the walk of a child directory gave to its parent's loop. *)
Definition child_walk (cfg : Config) (current_depth : Z) (c : node)
    (ss : Stats) : Prop :=
  exists p sl, walk_tree cfg c p (current_depth + 1) = Ok (sl, ss).

(** The name pattern, when one is given, compiles. *)
Definition name_compiles (cfg : Config) : Prop :=
  match given (name_pattern cfg) with
  | Some p => exists c, compile p (is_regex cfg) (ignore_case cfg) = Ok c
  | None => True
  end.

(** The number of matches [findall] gives over all lines and patterns. *)
Definition total_matches (cs : list Pattern) (lines : list string) : Z :=
  fold_right Z.add 0
    (map (fun line =>
            fold_right Z.add 0
              (map (fun c => Z.of_nat (List.length (findall c line))) cs))
         lines).

(** How often [k] occurs in the lines of a file. *)
Definition occurrences_in (ic : bool) (k : string) (lines : list string) : nat :=
  fold_right Nat.add 0%nat (map (Literal.occurrences ic k) lines).

(** The file passes the two filters of [search_file]. *)
Definition scanned (filepath : node) : bool :=
  negb (str_in (PyStr.lower (PyStr.lstrip_dot (suffix filepath))) EXCLUDE_EXTENSIONS)
  && negb (is_binary_file filepath).

End Shinju.

(** The configuration with [match_only] set to [b]. *)
Definition with_match_only (b : bool) (cfg : Config) : Config :=
  {| show_hidden := show_hidden cfg; dirs_only := dirs_only cfg;
     max_depth := max_depth cfg; search_pattern := search_pattern cfg;
     name_pattern := name_pattern cfg; is_regex := is_regex cfg;
     ignore_case := ignore_case cfg; match_only := b |}.

(** The configuration with another search pattern. *)
Definition with_search_pattern (p : option string) (cfg : Config) : Config :=
  {| show_hidden := show_hidden cfg; dirs_only := dirs_only cfg;
     max_depth := max_depth cfg; search_pattern := p;
     name_pattern := name_pattern cfg; is_regex := is_regex cfg;
     ignore_case := ignore_case cfg; match_only := match_only cfg |}.

(** One line sequence is the other with whole lines left out. *)
Inductive subsequence {A : Type} : list A -> list A -> Prop :=
| subseq_nil : subsequence [] []
| subseq_keep x l1 l2 : subsequence l1 l2 -> subsequence (x :: l1) (x :: l2)
| subseq_drop x l1 l2 : subsequence l1 l2 -> subsequence l1 (x :: l2).

(** How two results compare: both return, or both raise the same. *)
Definition result_rel {A B : Type} (R : A -> B -> Prop)
    (r1 : result A) (r2 : result B) : Prop :=
  match r1, r2 with
  | Ok a, Ok b => R a b
  | Raise e1, Raise e2 => e1 = e2
  | _, _ => False
  end.

(** The lines of the pruned walk are among those of the full walk, and the
    counters are the same. *)
Definition pruned (a b : list string * Stats) : Prop :=
  subsequence (fst a) (fst b) /\ snd a = snd b.


(** ** An instance for plain text and plain patterns

    Enough of the [re] module and of the text layer to run the program on
    ASCII files with "\n" line ends and on patterns without regex
    metacharacters (where a regex is its own literal); any pattern with a
    metacharacter is refused, as [re.compile] refuses ["("]. *)

Module Plain.

Definition is_meta (c : ascii) : bool :=
  existsb (Ascii.eqb c)
    (list_ascii_of_string ".^$*+?{}[]\|()").

Fixpoint has_meta (p : string) : bool :=
  match p with
  | EmptyString => false
  | String c p' => is_meta c || has_meta p'
  end.

Definition compile_plain (p : string) (ic : bool) : option (bool * string) :=
  if has_meta p then None else Some (ic, p).

(** The lines of ASCII text, each with its line end. *)
Fixpoint lines_of (cur : string) (data : list byte) : list string :=
  match data with
  | [] => match cur with EmptyString => [] | _ => [cur] end
  | b :: data' =>
      let cur' := cur ++ String (ascii_of_byte b) EmptyString in
      if Byte.eqb b x0a then cur' :: lines_of EmptyString data'
      else lines_of cur' data'
  end.

Definition bytes_of (s : string) : list byte := list_byte_of_string s.

#[export] Instance runtime : Runtime := {|
  regex := bool * string;
  re_compile := compile_plain;
  re_findall := fun r s => Literal.findall (fst r) (snd r) s;
  re_search := fun r s => Literal.search (fst r) (snd r) s;
  readlines := lines_of EmptyString
|}.

End Plain.

Definition plain_cfg : Config :=
  {| show_hidden := false; dirs_only := false; max_depth := None;
     search_pattern := None; name_pattern := None;
     is_regex := false; ignore_case := false; match_only := false |}.

Definition nl : string := String (ascii_of_nat 10) EmptyString.

(** ** The callers: [print_tree] and [main]

    What is printed is the list of the arguments of the calls of [print],
    in order.  A [Path] prints as the text of its path, which a node does
    not hold: [print_tree] takes it beside the node. *)

Definition BANNER : string :=
  nl ++ Colors.CYAN ++ "    ▄▄▄ ▐▌   ▄ ▄▄▄▄     ▗▖█  ▐▌"
  ++ nl ++ Colors.CYAN ++ "   ▀▄▄  ▐▌   ▄ █   █    ▗▖▀▄▄▞▘"
  ++ nl ++ Colors.CYAN ++ "   ▄▄▄▀ ▐▛▀▚▖█ █   █ ▄  ▐▌     "
  ++ nl ++ Colors.CYAN ++ "        ▐▌ ▐▌█       ▀▄▄▞▘" ++ Colors.RESET
  ++ nl
  ++ nl ++ Colors.BOLD ++ "   神樹(GodTree) + Search Tool" ++ Colors.RESET
  ++ nl.

(** The summary line of [print_tree]. *)
Definition summary_line (cfg : Config) (stats : Stats) : string :=
  let dir_text := if dirs stats =? 1 then "directory" else "directories" in
  let file_text := if files stats =? 1 then "file" else "files" in
  let summary :=
    PyStr.of_int (dirs stats) ++ " " ++ dir_text ++ ", "
    ++ PyStr.of_int (files stats) ++ " " ++ file_text in
  let summary :=
    match given (name_pattern cfg) with
    | Some _ =>
        let match_text :=
          if name_matches stats =? 1 then "name match" else "name matches" in
        summary ++ ", " ++ Colors.GREEN ++ PyStr.of_int (name_matches stats)
        ++ " " ++ match_text ++ Colors.RESET
    | None => summary
    end in
  match given (search_pattern cfg) with
  | Some _ =>
      let match_text :=
        if content_matches stats =? 1 then "content match" else "content matches" in
      summary ++ ", " ++ Colors.MAGENTA ++ PyStr.of_int (content_matches stats)
      ++ " " ++ match_text ++ Colors.RESET
  | None => summary
  end.

(** [print_tree]: what it has printed, and the exception that ended it, if
    one did.  The root is printed before the walk is made. *)
Definition print_tree {rt : Runtime} (directory_text : string) (directory : node)
    (cfg : Config) : list string * option exn :=
  let root := Colors.BLUE ++ Colors.BOLD ++ directory_text ++ Colors.RESET in
  match walk_tree cfg directory "" 0 with
  | Ok (lines, stats) =>
      (([root] ++ lines) ++ [""; summary_line cfg stats], None)%list
  | Raise e => ([root], Some e)
  end.

(** The first line [print_tree] prints. *)
Definition root_line (directory_text : string) : string :=
  Colors.BLUE ++ Colors.BOLD ++ directory_text ++ Colors.RESET.

(** The arguments [parse_args] gives. *)
Record Args := {
  arg_directory : string;
  arg_show_hidden : bool;
  arg_dirs_only : bool;
  arg_max_depth : option Z;
  arg_search : option string;
  arg_name : option string;
  arg_regex : bool;
  arg_ignore_case : bool;
  arg_matches_only : bool
}.

(** How a run ends: [main] returns, [sys.exit(status)], or an exception
    that nothing catches. *)
Inductive ending :=
| Returned
| Exited (status : Z)
| Uncaught (e : exn).

Record Run := {
  stdout : list string;
  stderr : list string;
  ended : ending
}.

(** [args.search or args.name] *)
Definition search_to_validate (args : Args) : option string :=
  match given (arg_search args) with
  | Some s => Some s
  | None => arg_name args
  end.

Definition config_of (args : Args) : Config :=
  {| show_hidden := arg_show_hidden args;
     dirs_only := arg_dirs_only args;
     max_depth := arg_max_depth args;
     search_pattern := arg_search args;
     name_pattern := arg_name args;
     is_regex := arg_regex args;
     ignore_case := arg_ignore_case args;
     match_only := arg_matches_only args |}.

(** [main] after [parse_args].  [fs] is the file system seen from the
    command line: for the text of a path, nothing when it does not exist,
    else the text of the resolved path and the node there.  [error_text p]
    is the text of the [re.error] that compiling [p] raises. *)
Definition main {rt : Runtime} (fs : string -> option (string * node))
    (error_text : string -> string) (args : Args) : Run :=
  match fs (arg_directory args) with
  | None =>
      {| stdout := [BANNER];
         stderr := ["Error: '" ++ arg_directory args ++ "' does not exist"];
         ended := Exited 1 |}
  | Some (directory_text, directory) =>
      if negb (is_dir directory) then
        {| stdout := [BANNER];
           stderr := ["Error: '" ++ arg_directory args ++ "' is not a directory"];
           ended := Exited 1 |}
      else
        let invalid :=
          match given (search_to_validate args) with
          | Some p =>
              if arg_regex args
              then match re_compile p false with
                   | Some _ => None
                   | None => Some p
                   end
              else None
          | None => None
          end in
        match invalid with
        | Some p =>
            {| stdout := [BANNER];
               stderr := ["Error: Invalid regex pattern: " ++ error_text p];
               ended := Exited 1 |}
        | None =>
            let '(printed, raised) :=
              print_tree directory_text directory (config_of args) in
            {| stdout := (BANNER :: printed)%list;
               stderr := [];
               ended := match raised with
                        | Some e => Uncaught e
                        | None => Returned
                        end |}
        end
  end.

(** *** More of what a walk does, to state its properties *)

(** The directories whose listing a walk started at [current_depth] is
    refused: the directory itself, or one it reaches. *)
Fixpoint refused (cfg : Config) (current_depth : Z) (d : node) {struct d}
  : list node :=
  if depth_cut cfg current_depth then []
  else
    match d with
    | Dir _ (Some children) =>
        flat_map
          (fun c => if shown cfg c then refused cfg (current_depth + 1) c else [])
          children
    | Dir _ None => [d]
    | File _ _ => []
    end.

(** The count is not negative, and there is a snippet exactly when the
    count is not zero. *)
Definition count_and_snippet (st : Z * string) : Prop :=
  0 <= fst st /\ (0 < fst st <-> PyStr.truthy (snd st) = true).

(** The number of lines a walk may put out: one for each entry it reaches
    and one for each listing it is refused. *)
Definition room (cfg : Config) (depth : Z) (d : node) : nat :=
  (List.length (reachable cfg depth d) + List.length (refused cfg depth d))%nat.

(** The number of characters of the lines of a file. *)
Definition total_length (lines : list string) : nat :=
  fold_right Nat.add 0%nat (map String.length lines).

(** The configuration with another depth limit. *)
Definition with_max_depth (m : option Z) (cfg : Config) : Config :=
  {| show_hidden := show_hidden cfg; dirs_only := dirs_only cfg;
     max_depth := m; search_pattern := search_pattern cfg;
     name_pattern := name_pattern cfg; is_regex := is_regex cfg;
     ignore_case := ignore_case cfg; match_only := match_only cfg |}.

(** The number of levels of directories in a tree: the walks that follow
    one another from it to the deepest listing. *)
Fixpoint levels (d : node) : nat :=
  match d with
  | File _ _ => 0
  | Dir _ None => 1
  | Dir _ (Some children) => S (list_max (map levels children))
  end.

(** The lines of a result, each with [p] in front. *)
Definition indent (p : string) (r : result (list string * Stats))
  : result (list string * Stats) :=
  match r with
  | Ok (lines, st) => Ok (map (String.append p) lines, st)
  | Raise e => Raise e
  end.

(** [s] ends with [t]. *)
Definition ends_with (s t : string) : Prop := exists pre, s = pre ++ t.

(** [s] holds [t]. *)
Definition holds (s t : string) : Prop := exists pre post, s = pre ++ t ++ post.

(** No dot in [s]. *)
Fixpoint no_dot (s : string) : bool :=
  match s with
  | EmptyString => true
  | String c s' => negb (Ascii.eqb c "."%char) && no_dot s'
  end.

(** ** Small trees and configurations to run the program on *)

Definition small_tree : node :=
  Dir "root" (Some [File "a" (Some []); Dir "b" (Some [File "c" None])]).

Definition prune_cfg : Config :=
  {| show_hidden := false; dirs_only := false; max_depth := None;
     search_pattern := None; name_pattern := None;
     is_regex := false; ignore_case := false; match_only := true |}.

Definition dirs_cfg : Config :=
  {| show_hidden := false; dirs_only := true; max_depth := None;
     search_pattern := Some "x"; name_pattern := None;
     is_regex := false; ignore_case := false; match_only := false |}.

Definition root_only_cfg : Config :=
  {| show_hidden := false; dirs_only := false; max_depth := Some 0;
     search_pattern := None; name_pattern := None;
     is_regex := false; ignore_case := false; match_only := false |}.

(** The configuration of [shinju -r -s x -n "(" root]. *)
Definition bad_name_cfg : Config :=
  {| show_hidden := false; dirs_only := false; max_depth := None;
     search_pattern := Some "x"; name_pattern := Some "(";
     is_regex := true; ignore_case := false; match_only := false |}.

(** A file of three lines, each with "ab" twice. *)
Definition notes : node :=
  File "notes.txt"
    (Some (Plain.bytes_of ("ab ab" ++ nl ++ "ab-ab" ++ nl ++ "xabab" ++ nl))).

Definition ab_cfg : Config :=
  {| show_hidden := false; dirs_only := false; max_depth := None;
     search_pattern := Some "ab"; name_pattern := None;
     is_regex := false; ignore_case := false; match_only := false |}.

Definition mixed_listing : list node :=
  [File "b" None; Dir "z" (Some []); File "A" None; Dir "Y" None].

(** [shinju -r -s x -n "(" proj], where [proj] holds one file. *)
Definition crash_args : Args :=
  {| arg_directory := "proj"; arg_show_hidden := false; arg_dirs_only := false;
     arg_max_depth := None; arg_search := Some "x"; arg_name := Some "(";
     arg_regex := true; arg_ignore_case := false; arg_matches_only := false |}.

Definition crash_fs (path : string) : option (string * node) :=
  if String.eqb path "proj"
  then Some ("/home/u/proj", Dir "proj" (Some [File "a" (Some [])]))
  else None.

Definition no_fs (path : string) : option (string * node) := None.

Definition comma_name_cfg : Config :=
  {| show_hidden := false; dirs_only := false; max_depth := None;
     search_pattern := None; name_pattern := Some "a,b";
     is_regex := false; ignore_case := false; match_only := false |}.

(** * Properties *)

(** ** The order of the keys *)

Lemma ascii_compare_N (a b : ascii) :
  Ascii.compare a b = N.compare (N_of_ascii a) (N_of_ascii b).
Proof. reflexivity. Qed.

Lemma ascii_compare_refl (a : ascii) : Ascii.compare a a = Eq.
Proof. rewrite ascii_compare_N. apply N.compare_refl. Qed.

Lemma string_leb_refl (s : string) : String.leb s s = true.
Proof.
  unfold String.leb. induction s as [|c s IH]; simpl; [reflexivity|].
  now rewrite ascii_compare_refl.
Qed.

Lemma string_leb_trans (s1 s2 s3 : string) :
  String.leb s1 s2 = true -> String.leb s2 s3 = true -> String.leb s1 s3 = true.
Proof.
  unfold String.leb. revert s2 s3.
  induction s1 as [|a s1 IH]; intros [|b s2] [|c s3]; simpl; try congruence.
  rewrite !ascii_compare_N.
  destruct (N.compare_spec (N_of_ascii a) (N_of_ascii b)) as [Hab|Hab|Hab];
    destruct (N.compare_spec (N_of_ascii b) (N_of_ascii c)) as [Hbc|Hbc|Hbc];
    try congruence; intros H1 H2.
  - rewrite Hab, Hbc, N.compare_refl. now apply (IH s2 s3).
  - rewrite Hab. now apply N.compare_lt_iff in Hbc as ->.
  - rewrite <- Hbc. now apply N.compare_lt_iff in Hab as ->.
  - assert (Hac : (N_of_ascii a < N_of_ascii c)%N) by lia.
    now apply N.compare_lt_iff in Hac as ->.
Qed.

Lemma key_leb_refl (k : bool * string) : key_leb k k = true.
Proof. destruct k as [[|] s]; apply string_leb_refl. Qed.

Lemma key_leb_total (k1 k2 : bool * string) :
  key_leb k1 k2 = true \/ key_leb k2 k1 = true.
Proof.
  destruct k1 as [[|] s1], k2 as [[|] s2]; unfold key_leb; simpl; auto;
    apply String.leb_total.
Qed.

Lemma key_leb_trans (k1 k2 k3 : bool * string) :
  key_leb k1 k2 = true -> key_leb k2 k3 = true -> key_leb k1 k3 = true.
Proof.
  destruct k1 as [[|] s1], k2 as [[|] s2], k3 as [[|] s3];
    unfold key_leb; simpl; try congruence; apply string_leb_trans.
Qed.

(** ** [sorted]: ordered, a rearrangement, and blind to what rides along *)

Section SortedFacts.
Context {A : Type} (key : A -> bool * string).

Lemma insert_by_perm (x : A) (l : list A) :
  Permutation (x :: l) (insert_by key x l).
Proof.
  induction l as [|y l IH]; simpl; [reflexivity|].
  destruct (key_leb (key x) (key y)); [reflexivity|].
  rewrite perm_swap. now constructor.
Qed.

Lemma sorted_by_perm (l : list A) : Permutation l (sorted_by key l).
Proof.
  induction l as [|x l IH]; simpl; [constructor|].
  rewrite <- insert_by_perm. now constructor.
Qed.

Lemma insert_by_sorted (x : A) (l : list A) :
  StronglySorted (key_le key) l -> StronglySorted (key_le key) (insert_by key x l).
Proof.
  induction 1 as [|y l Hl IH Hy]; simpl.
  - repeat constructor.
  - destruct (key_leb (key x) (key y)) eqn:Hxy.
    + constructor; [now constructor|].
      constructor; [exact Hxy|].
      eapply Forall_impl; [|exact Hy].
      intros z Hz. unfold key_le in *. eapply key_leb_trans; eassumption.
    + constructor; [exact IH|].
      rewrite <- insert_by_perm. constructor; [|exact Hy].
      unfold key_le. destruct (key_leb_total (key x) (key y)); congruence.
Qed.

Lemma sorted_by_sorted (l : list A) : StronglySorted (key_le key) (sorted_by key l).
Proof.
  induction l as [|x l IH]; simpl; [constructor|].
  now apply insert_by_sorted.
Qed.

Lemma filter_sorted (f : A -> bool) (l : list A) :
  StronglySorted (key_le key) l -> StronglySorted (key_le key) (filter f l).
Proof.
  induction 1 as [|y l Hl IH Hy]; simpl; [constructor|].
  destruct (f y); [|exact IH].
  constructor; [exact IH|].
  apply Forall_forall. intros z Hz. apply filter_In in Hz as [Hz _].
  rewrite Forall_forall in Hy. now apply Hy.
Qed.

End SortedFacts.

Lemma insert_by_map {A B : Type} (key : B -> bool * string) (f : A -> B)
    (x : A) (l : list A) :
  insert_by key (f x) (map f l) = map f (insert_by (fun a => key (f a)) x l).
Proof.
  induction l as [|y l IH]; simpl; [reflexivity|].
  destruct (key_leb (key (f x)) (key (f y))); simpl; [reflexivity|].
  now rewrite IH.
Qed.

Lemma sorted_by_map {A B : Type} (key : B -> bool * string) (f : A -> B)
    (l : list A) :
  sorted_by key (map f l) = map f (sorted_by (fun a => key (f a)) l).
Proof.
  induction l as [|x l IH]; simpl; [reflexivity|].
  now rewrite IH, insert_by_map.
Qed.

Lemma filter_map_comm {A B : Type} (p : B -> bool) (f : A -> B) (l : list A) :
  filter p (map f l) = map f (filter (fun a => p (f a)) l).
Proof.
  induction l as [|x l IH]; simpl; [reflexivity|].
  destruct (p (f x)); simpl; now rewrite IH.
Qed.

Lemma select_map {A B : Type} (cfg : Config) (what : B -> node) (f : A -> B)
    (l : list A) :
  select cfg what (map f l) = map f (select cfg (fun a => what (f a)) l).
Proof.
  unfold select. rewrite sorted_by_map.
  destruct (negb (show_hidden cfg)), (dirs_only cfg);
    now rewrite ?filter_map_comm.
Qed.

(** ** Counters *)

Ltac stats_eq :=
  repeat match goal with
         | s : Stats |- _ => destruct s
         end;
  unfold add_stats, zero_stats, own_stats;
  change (0 <? 0) with false;
  cbn [dirs files name_matches content_matches];
  repeat match goal with
         | |- context [if ?b then _ else _] => destruct b
         end;
  apply f_equal4; lia.

Lemma add_stats_zero_l (s : Stats) : add_stats zero_stats s = s.
Proof. stats_eq. Qed.

Lemma add_stats_zero_r (s : Stats) : add_stats s zero_stats = s.
Proof. stats_eq. Qed.

Lemma add_stats_assoc (a b c : Stats) :
  add_stats (add_stats a b) c = add_stats a (add_stats b c).
Proof. stats_eq. Qed.

Lemma filter_filter {A : Type} (p q : A -> bool) (l : list A) :
  filter q (filter p l) = filter (fun a => p a && q a) l.
Proof.
  induction l as [|x l IH]; simpl; [reflexivity|].
  destruct (p x); simpl; [destruct (q x)|]; now rewrite IH.
Qed.

Lemma filter_all {A : Type} (p : A -> bool) (l : list A) :
  (forall a, p a = true) -> filter p l = l.
Proof.
  intros H. induction l as [|x l IH]; simpl; [reflexivity|].
  now rewrite H, IH.
Qed.

Lemma filter_perm {A : Type} (p : A -> bool) (l l' : list A) :
  Permutation l l' -> Permutation (filter p l) (filter p l').
Proof.
  induction 1 as [|x l l' _ IH|x y l|l l' l'' _ IH1 _ IH2]; simpl.
  - constructor.
  - destruct (p x); [now constructor|exact IH].
  - destruct (p x), (p y); try reflexivity. apply perm_swap.
  - now rewrite IH1.
Qed.

Lemma flat_map_filter {A B : Type} (p : A -> bool) (f : A -> list B) (l : list A) :
  flat_map f (filter p l) = flat_map (fun a => if p a then f a else []) l.
Proof.
  induction l as [|x l IH]; simpl; [reflexivity|].
  destruct (p x); simpl; now rewrite IH.
Qed.

Section Properties.

Context {rt : Runtime}.

Lemma count_app (P : node -> bool) (l1 l2 : list node) :
  count P (l1 ++ l2) = count P l1 + count P l2.
Proof. unfold count. rewrite filter_app, length_app. lia. Qed.

Lemma count_perm (P : node -> bool) (l1 l2 : list node) :
  Permutation l1 l2 -> count P l1 = count P l2.
Proof.
  intros H. unfold count. f_equal.
  apply Permutation_length. now apply filter_perm.
Qed.

Lemma count_nonneg (P : node -> bool) (l : list node) : 0 <= count P l.
Proof. unfold count. lia. Qed.

Lemma count_none (P : node -> bool) (l : list node) :
  (forall e, In e l -> P e = false) -> count P l = 0.
Proof.
  intros H. unfold count.
  induction l as [|x l IH]; simpl; [reflexivity|].
  rewrite (H x (or_introl eq_refl)). apply IH. intros e He. apply H. now right.
Qed.

Lemma count_all (P : node -> bool) (l : list node) :
  (forall e, In e l -> P e = true) -> count P l = Z.of_nat (List.length l).
Proof.
  intros H. unfold count.
  induction l as [|x l IH]; simpl List.length; [reflexivity|].
  simpl filter. rewrite (H x (or_introl eq_refl)). simpl List.length.
  rewrite !Nat2Z.inj_succ. f_equal. apply IH. intros e He. apply H. now right.
Qed.

Lemma tally_nil (cfg : Config) : tally cfg [] = zero_stats.
Proof. reflexivity. Qed.

Lemma tally_app (cfg : Config) (l1 l2 : list node) :
  tally cfg (l1 ++ l2) = add_stats (tally cfg l1) (tally cfg l2).
Proof. unfold tally, add_stats; simpl. now rewrite !count_app. Qed.

Lemma tally_perm (cfg : Config) (l1 l2 : list node) :
  Permutation l1 l2 -> tally cfg l1 = tally cfg l2.
Proof. intros H. unfold tally. now rewrite !(count_perm _ l1 l2 H). Qed.

Lemma tally_one (cfg : Config) (e : node) :
  tally cfg [e]
  = own_stats (is_dir e) (name_hit cfg e) (fst (content_search cfg e)).
Proof.
  unfold tally, own_stats, count, content_hit; simpl.
  destruct (is_dir e), (name_hit cfg e), (0 <? fst (content_search cfg e));
    reflexivity.
Qed.

Lemma tally_cons (cfg : Config) (e : node) (l : list node) :
  tally cfg (e :: l)
  = add_stats (own_stats (is_dir e) (name_hit cfg e) (fst (content_search cfg e)))
      (tally cfg l).
Proof. now rewrite <- tally_one, <- tally_app. Qed.

Lemma files_dirs_length (cfg : Config) (l : list node) :
  files (tally cfg l) + dirs (tally cfg l) = Z.of_nat (List.length l).
Proof.
  unfold tally, count; cbn [files dirs].
  induction l as [|x l IH]; [reflexivity|].
  cbn [filter]. destruct (is_dir x); cbn [negb List.length];
    rewrite ?Nat2Z.inj_succ; lia.
Qed.

(** ** The entries of a frame *)

Lemma entries_filter (cfg : Config) (children : list node) :
  entries cfg children = filter (shown cfg) (sorted_by sort_key children).
Proof.
  unfold entries, select, shown.
  destruct (show_hidden cfg), (dirs_only cfg); simpl.
  - reflexivity.
  - symmetry. now apply filter_all.
  - rewrite filter_filter. reflexivity.
  - apply filter_ext. intros a. now rewrite andb_true_r.
Qed.

Lemma entries_perm (cfg : Config) (children : list node) :
  Permutation (entries cfg children) (filter (shown cfg) children).
Proof.
  rewrite entries_filter. apply filter_perm.
  symmetry. apply sorted_by_perm.
Qed.

Lemma entries_sorted (cfg : Config) (children : list node) :
  StronglySorted (key_le sort_key) (entries cfg children).
Proof.
  rewrite entries_filter. apply filter_sorted, sorted_by_sorted.
Qed.

Lemma entries_in (cfg : Config) (children : list node) (e : node) :
  In e (entries cfg children) -> In e children /\ shown cfg e = true.
Proof.
  intros H. apply (Permutation_in _ (entries_perm cfg children)) in H.
  now apply filter_In in H.
Qed.

Lemma entries_all (P : node -> Prop) (cfg : Config) (children : list node) :
  Forall P children -> Forall P (entries cfg children).
Proof.
  rewrite !Forall_forall. intros H e He. apply H.
  now apply entries_in in He.
Qed.

Lemma select_entries (cfg : Config) (children : list node) :
  select cfg fst (map (with_walk cfg) children)
  = map (with_walk cfg) (entries cfg children).
Proof. unfold entries. now rewrite select_map. Qed.

(** [walk_tree] on a listing that was read, as the program has it: the
    loop runs over the sorted and filtered entries and walks each
    directory among them. *)
Lemma walk_tree_dir (cfg : Config) (name : string) (children : list node)
    (prefix : string) (current_depth : Z) :
  walk_tree cfg (Dir name (Some children)) prefix current_depth
  = if depth_cut cfg current_depth then Ok ([], zero_stats)
    else for_each cfg prefix current_depth
           (Z.of_nat (List.length (entries cfg children)))
           (enumerate (map (with_walk cfg) (entries cfg children)))
           ([], zero_stats).
Proof.
  simpl. destruct (depth_cut cfg current_depth); [reflexivity|].
  change (map (fun e => (e, walk_tree cfg e)) children)
    with (map (with_walk cfg) children).
  rewrite select_entries. now rewrite length_map.
Qed.

(** ** One turn of the loop *)

Lemma content_search_dir (cfg : Config) (e : node) :
  is_dir e = true -> content_search cfg e = (0, "").
Proof.
  intros H. unfold content_search. rewrite H.
  now destruct (given (search_pattern cfg)).
Qed.

Lemma visit_eq (cfg : Config) (prefix : string) (current_depth n : Z)
    (lines : list string) (stats : Stats) (i : Z) (e : node) (w : walker) :
  visit cfg prefix current_depth n (lines, stats) (i, (e, w))
  = (nm <- name_search cfg e ;;
     ' (sl, ss) <- (if is_dir e
                    then w (next_prefix_of prefix i n) (current_depth + 1)
                    else Ok ([], zero_stats)) ;;
     Ok ((lines ++ (if emitted cfg nm (fst (content_search cfg e)) ss
                    then line_for cfg prefix i n e nm :: sl else []))%list,
         add_stats stats
           (add_stats (own_stats (is_dir e) nm (fst (content_search cfg e))) ss))).
Proof.
  unfold visit, line_for, branch_of, next_prefix_of, emitted.
  destruct (is_dir e) eqn:Hd.
  - rewrite (content_search_dir cfg e Hd). cbn [fst snd].
    destruct (name_search cfg e) as [nm|ex]; [|reflexivity].
    cbn [bind]. change (0 <? 0) with false.
    destruct (w _ _) as [[sl ss]|ex]; [|reflexivity].
    cbn [bind]. f_equal. f_equal.
    + rewrite orb_false_r.
      replace (nm || (0 <? name_matches ss) || (0 <? content_matches ss))
        with ((0 <? name_matches ss) || (0 <? content_matches ss) || nm)
        by (destruct nm, (0 <? name_matches ss), (0 <? content_matches ss);
            reflexivity).
      destruct (negb (match_only cfg) || _).
      * now rewrite <- app_assoc.
      * now rewrite app_nil_r.
    + destruct nm; stats_eq.
  - destruct (name_search cfg e) as [nm|ex]; [|reflexivity].
    cbn [bind]. destruct (content_search cfg e) as [mc snip]. cbn [fst snd].
    f_equal. f_equal.
    + change (0 <? name_matches zero_stats) with false.
      change (0 <? content_matches zero_stats) with false.
      rewrite !orb_false_r.
      destruct (negb (match_only cfg) || _); [reflexivity|].
      now rewrite app_nil_r.
    + unfold own_stats. destruct nm, (0 <? mc); stats_eq.
Qed.

(** ** The counters of a walk *)

Lemma reachable_file (cfg : Config) (current_depth : Z) (e : node) :
  is_dir e = false -> reachable cfg current_depth e = [].
Proof.
  destruct e; [|discriminate]. intros _. simpl.
  now destruct (depth_cut cfg current_depth).
Qed.

Lemma reachable_dir (cfg : Config) (current_depth : Z) (name : string)
    (children : list node) :
  depth_cut cfg current_depth = false ->
  Permutation
    (reachable cfg current_depth (Dir name (Some children)))
    (flat_map (fun c => c :: reachable cfg (current_depth + 1) c)
       (entries cfg children)).
Proof.
  intros Hcut. simpl. rewrite Hcut.
  rewrite <- (flat_map_filter (shown cfg)
                (fun c => c :: reachable cfg (current_depth + 1) c)).
  apply Permutation_flat_map. symmetry. apply entries_perm.
Qed.

Lemma name_search_hit (cfg : Config) (e : node) (nm : bool) :
  name_search cfg e = Ok nm -> name_hit cfg e = nm.
Proof. unfold name_hit. now intros ->. Qed.

Lemma for_each_stats (cfg : Config) (prefix : string) (current_depth n : Z)
    (es : list node) :
  Forall (fun e => forall p d lines st,
            walk_tree cfg e p d = Ok (lines, st) ->
            st = tally cfg (reachable cfg d e)) es ->
  forall i acc lines st,
    for_each cfg prefix current_depth n
      (enumerate_from i (map (with_walk cfg) es)) acc = Ok (lines, st) ->
    exists subs,
      Forall2 (child_walk cfg current_depth) (filter is_dir es) subs
      /\ st = add_stats (snd acc) (add_stats (tally cfg es) (sum_stats subs))
      /\ add_stats (tally cfg es) (sum_stats subs)
         = tally cfg (flat_map (fun c => c :: reachable cfg (current_depth + 1) c) es).
Proof.
  induction 1 as [|e es He _ IH]; intros i [lines0 stats0] lines st Hrun.
  - simpl in Hrun. injection Hrun as <- <-. exists []. repeat split.
    + constructor.
    + simpl. now rewrite tally_nil, !add_stats_zero_r.
  - cbn [map enumerate_from for_each] in Hrun. unfold with_walk at 1 in Hrun.
    rewrite visit_eq in Hrun.
    destruct (name_search cfg e) as [nm|ex] eqn:Hnm; [|discriminate].
    cbn [bind] in Hrun.
    destruct (is_dir e) eqn:Hd.
    + destruct (walk_tree cfg e _ _) as [[sl ss]|ex] eqn:Hw; [|discriminate].
      cbn [bind] in Hrun.
      apply IH in Hrun as (subs & Hsubs & Hst & Hsum).
      exists (ss :: subs). cbn [filter]. rewrite Hd. split; [|split].
      * constructor; [|exact Hsubs]. now exists (next_prefix_of prefix i n), sl.
      * rewrite Hst. cbn [snd sum_stats fold_right].
        rewrite tally_cons, (name_search_hit _ _ _ Hnm).
        fold (sum_stats subs). stats_eq.
      * cbn [flat_map sum_stats fold_right]. fold (sum_stats subs).
        rewrite tally_app, !tally_cons, <- Hsum, <- (He _ _ _ _ Hw).
        stats_eq.
    + cbn [bind] in Hrun.
      apply IH in Hrun as (subs & Hsubs & Hst & Hsum).
      exists subs. cbn [filter]. rewrite Hd. split; [exact Hsubs|split].
      * rewrite Hst. cbn [snd].
        rewrite tally_cons, (name_search_hit _ _ _ Hnm). stats_eq.
      * cbn [flat_map]. rewrite (reachable_file _ _ _ Hd). cbn [app].
        now rewrite !tally_cons, <- Hsum, add_stats_assoc.
Qed.

Lemma walk_tally (cfg : Config) (d : node) :
  forall p depth lines st,
    walk_tree cfg d p depth = Ok (lines, st) ->
    st = tally cfg (reachable cfg depth d).
Proof.
  induction d as [name data|name|name children IH] using node_ind;
    intros p depth lines st Hrun.
  - simpl in *. destruct (depth_cut cfg depth); [|discriminate].
    now injection Hrun as <- <-.
  - simpl in *. destruct (depth_cut cfg depth); now injection Hrun as <- <-.
  - rewrite walk_tree_dir in Hrun.
    destruct (depth_cut cfg depth) eqn:Hcut.
    + injection Hrun as <- <-. simpl. now rewrite Hcut.
    + apply for_each_stats in Hrun as (subs & _ & Hst & Hsum);
        [|now apply entries_all].
      rewrite Hst, Hsum. cbn [snd]. rewrite add_stats_zero_l.
      apply tally_perm. symmetry. now apply reachable_dir.
Qed.

(** ** A walk returns when the name pattern compiles *)

Lemma name_search_returns (cfg : Config) (e : node) :
  name_compiles cfg -> exists nm, name_search cfg e = Ok nm.
Proof.
  unfold name_compiles, name_search.
  destruct (given (name_pattern cfg)) as [p|]; [|now exists false].
  intros [c ->]. cbn [bind]. eauto.
Qed.

Lemma for_each_returns (cfg : Config) (prefix : string) (current_depth n : Z)
    (es : list node) :
  name_compiles cfg ->
  Forall (fun e => is_dir e = true ->
                   forall p d, exists r, walk_tree cfg e p d = Ok r) es ->
  forall i acc,
    exists r,
      for_each cfg prefix current_depth n
        (enumerate_from i (map (with_walk cfg) es)) acc = Ok r.
Proof.
  intros Hname. induction 1 as [|e es He _ IH]; intros i [lines0 stats0].
  - simpl. eauto.
  - cbn [map enumerate_from for_each]. unfold with_walk at 1.
    rewrite visit_eq.
    destruct (name_search_returns cfg e Hname) as [nm ->]. cbn [bind].
    destruct (is_dir e).
    + destruct (He eq_refl (next_prefix_of prefix i n) (current_depth + 1))
        as [[sl ss] ->].
      cbn [bind]. apply IH.
    + cbn [bind]. apply IH.
Qed.

Lemma walk_returns (cfg : Config) (d : node) :
  name_compiles cfg -> is_dir d = true ->
  forall p depth, exists r, walk_tree cfg d p depth = Ok r.
Proof.
  intros Hname.
  induction d as [name data|name|name children IH] using node_ind;
    intros Hd p depth; [discriminate| |].
  - simpl. destruct (depth_cut cfg depth); eauto.
  - rewrite walk_tree_dir. destruct (depth_cut cfg depth); [eauto|].
    apply for_each_returns; [exact Hname|now apply entries_all].
Qed.



(** ** The depth cutoff *)

(** C6.  With [max_depth] set, a walk called at a depth that has reached it
    returns at once, with no line and all counters zero, whatever it is
    called on; so with [max_depth = 0] the walk from the root (depth 0)
    gives no line and the counters {0,0,0,0} for every tree. *)
Theorem walk_depth_cutoff (cfg : Config) (d : node) (prefix : string)
    (current_depth m : Z) :
  max_depth cfg = Some m ->
  (m <= current_depth ->
   walk_tree cfg d prefix current_depth = Ok ([], zero_stats))
  /\ (m = 0 -> walk_tree cfg d prefix 0 = Ok ([], zero_stats)).
Proof.
  intros Hm.
  assert (Hcut : forall depth, m <= depth ->
                 walk_tree cfg d prefix depth = Ok ([], zero_stats)).
  { intros depth Hle.
    assert (depth_cut cfg depth = true) as Hc
      by (unfold depth_cut; rewrite Hm; now apply Z.leb_le).
    destruct d as [name data|name [children|]]; simpl; now rewrite Hc. }
  split.
  - apply Hcut.
  - intros ->. now apply Hcut.
Qed.

(** ** What [search_file] leaves unread *)

Lemma search_file_binary (filepath : node) (pattern : string) (is_rx ic : bool) :
  is_binary_file filepath = true ->
  search_file filepath pattern is_rx ic = (0, "").
Proof.
  intros H. unfold search_file. rewrite H.
  now destruct (str_in _ EXCLUDE_EXTENSIONS).
Qed.

(** C8.  [search_file] gives a zero count and no snippet, for every pattern,
    mode and runtime, hence without a look at the lines, for a file whose
    extension (the suffix without its dots, in lower case) is one of gz,
    zip, tar, rar, 7z, bz2, xz, deb, img, iso, vmdk, dll, ovf, ova; for a
    file with a null byte among its first 1024 bytes; and for a file that
    cannot be opened and read, which [is_binary_file] takes for binary. *)
Theorem search_file_rejects (filepath : node) (pattern : string)
    (is_rx ic : bool) :
  EXCLUDE_EXTENSIONS
  = ["gz"; "zip"; "tar"; "rar"; "7z"; "bz2"; "xz";
     "deb"; "img"; "iso"; "vmdk"; "dll"; "ovf"; "ova"]
  /\ (str_in (PyStr.lower (PyStr.lstrip_dot (suffix filepath))) EXCLUDE_EXTENSIONS
      = true ->
      search_file filepath pattern is_rx ic = (0, ""))
  /\ (forall data,
        open_read filepath = Ok data ->
        In x00 (firstn 1024 data) ->
        is_binary_file filepath = true
        /\ search_file filepath pattern is_rx ic = (0, ""))
  /\ (forall e,
        open_read filepath = Raise e ->
        is_binary_file filepath = true
        /\ search_file filepath pattern is_rx ic = (0, "")).
Proof.
  split; [reflexivity|]. split; [|split].
  - intros H. unfold search_file. now rewrite H.
  - intros data Hopen Hnul.
    assert (is_binary_file filepath = true) as Hb.
    { unfold is_binary_file. rewrite Hopen. apply existsb_exists.
      exists x00. split; [exact Hnul|reflexivity]. }
    split; [exact Hb|now apply search_file_binary].
  - intros e Hopen.
    assert (is_binary_file filepath = true) as Hb
      by (unfold is_binary_file; now rewrite Hopen).
    split; [exact Hb|now apply search_file_binary].
Qed.

(** ** Directories only *)

Lemma shown_dirs_only (cfg : Config) (e : node) :
  dirs_only cfg = true -> shown cfg e = true -> is_dir e = true.
Proof.
  unfold shown. intros ->. cbn [negb orb].
  now intros [_ H]%andb_prop.
Qed.

Lemma reachable_dirs_only (cfg : Config) (d : node) :
  dirs_only cfg = true ->
  forall depth e, In e (reachable cfg depth d) -> is_dir e = true.
Proof.
  intros Hdo.
  induction d as [name data|name|name children IH] using node_ind;
    intros depth e He.
  - now rewrite reachable_file in He.
  - simpl in He. now destruct (depth_cut cfg depth).
  - simpl in He. destruct (depth_cut cfg depth); [contradiction|].
    apply in_flat_map in He as (c & Hc & He).
    destruct (shown cfg c) eqn:Hs; [|contradiction].
    destruct He as [<-|He].
    + now apply (shown_dirs_only cfg).
    + rewrite Forall_forall in IH. exact (IH c Hc _ _ He).
Qed.

Lemma format_entry_dir (name : string) (nm a1 a2 : bool) :
  format_entry name true 0 "" nm a1 = format_entry name true 0 "" nm a2.
Proof. unfold format_entry. now destruct nm. Qed.

Lemma for_each_search_pattern (cfg : Config) (sp : option string)
    (prefix : string) (current_depth n : Z) (es : list node) :
  Forall (fun e => is_dir e = true) es ->
  Forall (fun e => forall p d,
            walk_tree (with_search_pattern sp cfg) e p d = walk_tree cfg e p d) es ->
  forall i acc,
    for_each (with_search_pattern sp cfg) prefix current_depth n
      (enumerate_from i (map (with_walk (with_search_pattern sp cfg)) es)) acc
    = for_each cfg prefix current_depth n
        (enumerate_from i (map (with_walk cfg) es)) acc.
Proof.
  intros Hdirs. induction 1 as [|e es He _ IH]; intros i [lines0 stats0];
    [reflexivity|].
  apply Forall_cons_iff in Hdirs as [Hd Hdirs].
  cbn [map enumerate_from for_each]. unfold with_walk at 1 3.
  rewrite !visit_eq, Hd, He.
  change (name_search (with_search_pattern sp cfg) e) with (name_search cfg e).
  destruct (name_search cfg e) as [nm|ex]; [|reflexivity]. cbn [bind].
  destruct (walk_tree cfg e _ _) as [[sl ss]|ex]; [|reflexivity]. cbn [bind].
  unfold line_for. rewrite !(content_search_dir _ e Hd), Hd. cbn [fst snd].
  rewrite (format_entry_dir _ nm _
             (is_some (search_pattern cfg) || is_some (name_pattern cfg))).
  now apply IH.
Qed.

Lemma walk_search_pattern (cfg : Config) (sp : option string) (d : node) :
  dirs_only cfg = true ->
  forall p depth,
    walk_tree (with_search_pattern sp cfg) d p depth = walk_tree cfg d p depth.
Proof.
  intros Hdo.
  induction d as [name data|name|name children IH] using node_ind;
    intros p depth; try reflexivity.
  rewrite !walk_tree_dir.
  change (depth_cut (with_search_pattern sp cfg) depth) with (depth_cut cfg depth).
  change (entries (with_search_pattern sp cfg) children) with (entries cfg children).
  destruct (depth_cut cfg depth); [reflexivity|].
  apply for_each_search_pattern.
  - apply Forall_forall. intros e He. apply entries_in in He as [_ Hs].
    now apply (shown_dirs_only cfg).
  - now apply entries_all.
Qed.

(** C10.  With [dirs_only], whatever the search pattern, the Stats a walk
    returns at any level have [files = 0] and [content_matches = 0] (and the
    walk of a directory returns whenever the name pattern compiles): every
    entry the walk reaches is a directory, and the result of the walk is the
    same under every other search pattern, none included, so that the
    content of no file bears on it. *)
Theorem dirs_only_counts_no_file (cfg : Config) (d : node) (prefix : string)
    (current_depth : Z) :
  dirs_only cfg = true ->
  (forall lines st,
     walk_tree cfg d prefix current_depth = Ok (lines, st) ->
     files st = 0 /\ content_matches st = 0)
  /\ (name_compiles cfg -> is_dir d = true ->
      exists lines st, walk_tree cfg d prefix current_depth = Ok (lines, st))
  /\ (forall e, In e (reachable cfg current_depth d) ->
       is_dir e = true /\ content_search cfg e = (0, ""))
  /\ (forall sp,
       walk_tree (with_search_pattern sp cfg) d prefix current_depth
       = walk_tree cfg d prefix current_depth).
Proof.
  intros Hdo.
  pose proof (reachable_dirs_only cfg d Hdo current_depth) as Hall.
  split; [|split; [|split]].
  - intros lines st Hrun. rewrite (walk_tally _ _ _ _ _ _ Hrun).
    unfold tally; cbn [files content_matches]. split; apply count_none.
    + intros e He. now rewrite (Hall e He).
    + intros e He. unfold content_hit.
      now rewrite (content_search_dir cfg e (Hall e He)).
  - intros Hname Hd.
    destruct (walk_returns cfg d Hname Hd prefix current_depth) as [[lines st] H].
    now exists lines, st.
  - intros e He. split; [now apply Hall|].
    apply content_search_dir. now apply Hall.
  - intros sp. now apply walk_search_pattern.
Qed.

(** ** Pruning *)

Lemma subseq_refl {A : Type} (l : list A) : subsequence l l.
Proof. induction l; now constructor. Qed.

Lemma subseq_nil_l {A : Type} (l : list A) : subsequence [] l.
Proof. induction l; now constructor. Qed.

Lemma subseq_app {A : Type} (l1 l2 k1 k2 : list A) :
  subsequence l1 l2 -> subsequence k1 k2 -> subsequence (l1 ++ k1) (l2 ++ k2).
Proof. induction 1; intros Hk; simpl; [exact Hk| |]; constructor; auto. Qed.

Lemma for_each_prune (cfg : Config) (prefix : string) (current_depth n : Z)
    (es : list node) :
  Forall (fun e => forall p d,
            result_rel pruned
              (walk_tree (with_match_only true cfg) e p d)
              (walk_tree (with_match_only false cfg) e p d)) es ->
  forall i acc1 acc2,
    pruned acc1 acc2 ->
    result_rel pruned
      (for_each (with_match_only true cfg) prefix current_depth n
         (enumerate_from i (map (with_walk (with_match_only true cfg)) es)) acc1)
      (for_each (with_match_only false cfg) prefix current_depth n
         (enumerate_from i (map (with_walk (with_match_only false cfg)) es)) acc2).
Proof.
  induction 1 as [|e es He _ IH];
    intros i [lines1 stats1] [lines2 stats2] [Hl Hs]; cbn [fst snd] in Hl, Hs.
  - simpl. now split.
  - subst stats2. cbn [map enumerate_from for_each]. unfold with_walk at 1 3.
    rewrite !visit_eq.
    change (name_search (with_match_only true cfg) e) with (name_search cfg e).
    change (name_search (with_match_only false cfg) e) with (name_search cfg e).
    destruct (name_search cfg e) as [nm|ex]; [|reflexivity]. cbn [bind].
    change (content_search (with_match_only true cfg) e)
      with (content_search cfg e).
    change (content_search (with_match_only false cfg) e)
      with (content_search cfg e).
    change (line_for (with_match_only true cfg)) with (line_for cfg).
    change (line_for (with_match_only false cfg)) with (line_for cfg).
    destruct (is_dir e).
    + specialize (He (next_prefix_of prefix i n) (current_depth + 1)).
      destruct (walk_tree (with_match_only true cfg) e _ _) as [[sl1 ss1]|ex1];
        destruct (walk_tree (with_match_only false cfg) e _ _) as [[sl2 ss2]|ex2];
        cbn [result_rel] in He; try contradiction; [|now subst].
      destruct He as [Hsl Hss]. cbn [fst snd] in Hsl, Hss. subst ss2.
      cbn [bind]. apply IH. split; cbn [fst snd]; [|reflexivity].
      apply subseq_app; [exact Hl|].
      unfold emitted at 2. cbn [match_only with_match_only negb orb].
      destruct (emitted _ _ _ _).
      * now constructor.
      * apply subseq_nil_l.
    + cbn [bind]. apply IH. split; cbn [fst snd]; [|reflexivity].
      apply subseq_app; [exact Hl|].
      unfold emitted at 2. cbn [match_only with_match_only negb orb].
      destruct (emitted _ _ _ _).
      * apply subseq_refl.
      * apply subseq_nil_l.
Qed.

Lemma walk_prune (cfg : Config) (d : node) :
  forall p depth,
    result_rel pruned
      (walk_tree (with_match_only true cfg) d p depth)
      (walk_tree (with_match_only false cfg) d p depth).
Proof.
  induction d as [name data|name|name children IH] using node_ind;
    intros p depth.
  - simpl. change (depth_cut (with_match_only true cfg) depth)
      with (depth_cut cfg depth).
    change (depth_cut (with_match_only false cfg) depth)
      with (depth_cut cfg depth).
    destruct (depth_cut cfg depth); [|reflexivity].
    split; [constructor|reflexivity].
  - simpl. change (depth_cut (with_match_only true cfg) depth)
      with (depth_cut cfg depth).
    change (depth_cut (with_match_only false cfg) depth)
      with (depth_cut cfg depth).
    destruct (depth_cut cfg depth); (split; [apply subseq_refl|reflexivity]).
  - rewrite !walk_tree_dir.
    change (depth_cut (with_match_only true cfg) depth)
      with (depth_cut cfg depth).
    change (depth_cut (with_match_only false cfg) depth)
      with (depth_cut cfg depth).
    change (entries (with_match_only true cfg) children)
      with (entries cfg children).
    change (entries (with_match_only false cfg) children)
      with (entries cfg children).
    destruct (depth_cut cfg depth).
    + split; [constructor|reflexivity].
    + apply for_each_prune; [now apply entries_all|].
      split; [constructor|reflexivity].
Qed.

(** With [match_only] and no match among what the loop comes to, no line is
    added. *)
Lemma for_each_no_match (cfg : Config) (prefix : string) (current_depth n : Z)
    (es : list node) :
  match_only cfg = true ->
  (forall e,
     In e (flat_map (fun c => c :: reachable cfg (current_depth + 1) c) es) ->
     name_hit cfg e = false /\ content_hit cfg e = false) ->
  forall i acc lines st,
    for_each cfg prefix current_depth n
      (enumerate_from i (map (with_walk cfg) es)) acc = Ok (lines, st) ->
    lines = fst acc.
Proof.
  intros Hmo. induction es as [|e es IH]; intros Hno i [lines0 stats0] lines st Hrun.
  - simpl in Hrun. now injection Hrun as <- <-.
  - cbn [map enumerate_from for_each] in Hrun. unfold with_walk at 1 in Hrun.
    rewrite visit_eq in Hrun.
    destruct (name_search cfg e) as [nm|ex] eqn:Hnm; [|discriminate].
    cbn [bind] in Hrun.
    assert (He : name_hit cfg e = false /\ content_hit cfg e = false)
      by (apply Hno; simpl; now left).
    destruct He as [Hn Hc]. rewrite (name_search_hit _ _ _ Hnm) in Hn. subst nm.
    unfold content_hit in Hc.
    assert (Hrest : forall x,
               In x (flat_map (fun c => c :: reachable cfg (current_depth + 1) c) es) ->
               name_hit cfg x = false /\ content_hit cfg x = false).
    { intros x Hx. apply Hno. cbn [flat_map]. apply in_or_app. now right. }
    destruct (is_dir e).
    + destruct (walk_tree cfg e _ _) as [[sl ss]|ex] eqn:Hw; [|discriminate].
      cbn [bind] in Hrun.
      assert (Hss : name_matches ss = 0 /\ content_matches ss = 0).
      { rewrite (walk_tally _ _ _ _ _ _ Hw). unfold tally.
        cbn [name_matches content_matches].
        split; apply count_none; intros x Hx; apply Hno; cbn [flat_map];
          apply in_or_app; left; now right. }
      destruct Hss as [Hs1 Hs2].
      unfold emitted in Hrun. rewrite Hmo, Hc, Hs1, Hs2 in Hrun.
      cbn [negb orb] in Hrun. change (0 <? 0) with false in Hrun.
      rewrite app_nil_r in Hrun.
      now apply (IH Hrest) in Hrun.
    + cbn [bind] in Hrun.
      unfold emitted in Hrun. rewrite Hmo, Hc in Hrun.
      cbn [negb orb name_matches content_matches zero_stats] in Hrun.
      change (0 <? 0) with false in Hrun.
      rewrite app_nil_r in Hrun.
      now apply (IH Hrest) in Hrun.
Qed.

Lemma walk_no_match (cfg : Config) (d : node) (p : string) (depth : Z)
    (lines : list string) (st : Stats) :
  match_only cfg = true ->
  walk_tree cfg d p depth = Ok (lines, st) ->
  (forall e, In e (reachable cfg depth d) ->
             name_hit cfg e = false /\ content_hit cfg e = false) ->
  lines = [] \/ (iterdir d = Raise PermissionError /\ lines = [denied_line p]).
Proof.
  intros Hmo Hrun Hno.
  destruct d as [name data|name [children|]].
  - simpl in Hrun. destruct (depth_cut cfg depth); [|discriminate].
    injection Hrun as <- <-. now left.
  - rewrite walk_tree_dir in Hrun.
    destruct (depth_cut cfg depth) eqn:Hcut.
    + injection Hrun as <- <-. now left.
    + left. apply (for_each_no_match _ _ _ _ _ Hmo) in Hrun; [exact Hrun|].
      intros e He. apply Hno.
      apply (Permutation_in _ (Permutation_sym (reachable_dir _ _ name _ Hcut))).
      exact He.
  - simpl in Hrun. destruct (depth_cut cfg depth); injection Hrun as <- <-.
    + now left.
    + right. now split.
Qed.


(** C9.  The lines of a walk with [match_only] are a subsequence of the
    lines of the same walk without it: they are lines of the full walk, the
    same strings in the same order, with whole lines left out; and the
    pruned walk returns exactly when the full walk does. *)
Theorem pruned_lines_subsequence (cfg : Config) (d : node) (prefix : string)
    (current_depth : Z) :
  result_rel (fun a b => subsequence (fst a) (fst b))
    (walk_tree (with_match_only true cfg) d prefix current_depth)
    (walk_tree (with_match_only false cfg) d prefix current_depth).
Proof.
  pose proof (walk_prune cfg d prefix current_depth) as H.
  destruct (walk_tree (with_match_only true cfg) d prefix current_depth)
    as [[l1 s1]|e1];
    destruct (walk_tree (with_match_only false cfg) d prefix current_depth)
    as [[l2 s2]|e2]; cbn [result_rel] in *; try contradiction.
  - now destruct H.
  - exact H.
Qed.

(** ** What escapes the walk *)

(** Past the depth test, the walk does what [iterdir] lets it do: a
    refusal is the notice, any other error goes up. *)
Lemma walk_tree_iterdir (cfg : Config) (d : node) (p : string) (depth : Z) :
  depth_cut cfg depth = false ->
  match iterdir d with
  | Ok children =>
      walk_tree cfg d p depth
      = for_each cfg p depth (Z.of_nat (List.length (entries cfg children)))
          (enumerate (map (with_walk cfg) (entries cfg children)))
          ([], zero_stats)
  | Raise PermissionError =>
      walk_tree cfg d p depth = Ok ([denied_line p], zero_stats)
  | Raise e => walk_tree cfg d p depth = Raise e
  end.
Proof.
  intros Hcut. destruct d as [name data|name [children|]]; cbn [iterdir].
  - simpl. now rewrite Hcut.
  - now rewrite walk_tree_dir, Hcut.
  - simpl. now rewrite Hcut.
Qed.




Lemma name_search_raises (cfg : Config) (e : node) (p : string) :
  given (name_pattern cfg) = Some p ->
  is_regex cfg = true ->
  re_compile p (ignore_case cfg) = None ->
  name_search cfg e = Raise ReError.
Proof.
  intros Hp Hrx Hc. unfold name_search, compile. now rewrite Hp, Hrx, Hc.
Qed.

(** C3.  An exception does escape the walk: when [is_regex] is set and the
    name pattern does not compile, the walk of a directory with an entry to
    work on raises [re.error], whatever the search pattern is.  A listing
    that is refused is absorbed, as one notice and zero counters, and
    [search_file] turns every failure into a zero count. *)
Theorem walk_raises_on_bad_name_regex (cfg : Config) (name : string)
    (children : list node) (prefix : string) (current_depth : Z) (p : string) :
  given (name_pattern cfg) = Some p ->
  is_regex cfg = true ->
  re_compile p (ignore_case cfg) = None ->
  depth_cut cfg current_depth = false ->
  entries cfg children <> [] ->
  walk_tree cfg (Dir name (Some children)) prefix current_depth = Raise ReError
  /\ walk_tree cfg (Dir name None) prefix current_depth
     = Ok ([denied_line prefix], zero_stats)
  /\ forall filepath sp,
       search_body filepath sp true (ignore_case cfg) = Raise ReError ->
       search_file filepath sp true (ignore_case cfg) = (0, "").
Proof.
  intros Hp Hrx Hc Hcut Hne. split; [|split].
  - rewrite walk_tree_dir, Hcut.
    destruct (entries cfg children) as [|e es]; [congruence|].
    cbn [map enumerate enumerate_from for_each]. unfold with_walk at 1.
    now rewrite visit_eq, (name_search_raises cfg e p Hp Hrx Hc).
  - simpl. now rewrite Hcut.
  - intros filepath sp Hbody. unfold search_file. rewrite Hbody.
    destruct (str_in _ EXCLUDE_EXTENSIONS); [reflexivity|].
    now destruct (is_binary_file filepath).
Qed.

(** ** The order of the entries *)

Lemma strongly_sorted_pair {A : Type} (R : A -> A -> Prop)
    (l1 : list A) (a : A) (l2 : list A) (b : A) (l3 : list A) :
  StronglySorted R (l1 ++ a :: l2 ++ b :: l3) -> R a b.
Proof.
  induction l1 as [|x l1 IH]; simpl; intros H.
  - apply StronglySorted_inv in H as [_ H].
    rewrite Forall_forall in H. apply H.
    apply in_or_app. right. now left.
  - apply StronglySorted_inv in H as [H _]. now apply IH.
Qed.

Lemma key_le_dirs_first (a b : node) :
  key_le sort_key a b ->
  (is_dir b = true -> is_dir a = true)
  /\ (is_dir a = is_dir b ->
      String.leb (PyStr.lower (node_name a)) (PyStr.lower (node_name b)) = true).
Proof.
  unfold key_le, key_leb, sort_key. cbn [fst snd].
  destruct (is_dir a), (is_dir b); cbn [negb]; intros H; split;
    congruence || auto.
Qed.

(** C7.  The loop of a frame runs over the entries that pass the filters,
    all of them, each once, in an order where no file comes before a
    directory and where, among directories and among files, the names in
    lower case go up in the order of strings.  The files Banana, apple and
    Cherry with the directory Zeta come out as Zeta/, apple, Banana,
    Cherry. *)
Theorem entries_dirs_first_by_name (cfg : Config) (children : list node) :
  (forall name prefix current_depth,
     depth_cut cfg current_depth = false ->
     walk_tree cfg (Dir name (Some children)) prefix current_depth
     = for_each cfg prefix current_depth
         (Z.of_nat (List.length (entries cfg children)))
         (enumerate (map (with_walk cfg) (entries cfg children)))
         ([], zero_stats))
  /\ Permutation (entries cfg children) (filter (shown cfg) children)
  /\ (forall l1 a l2 b l3,
        entries cfg children = (l1 ++ a :: l2 ++ b :: l3)%list ->
        (is_dir b = true -> is_dir a = true)
        /\ (is_dir a = is_dir b ->
            String.leb (PyStr.lower (node_name a)) (PyStr.lower (node_name b))
            = true))
  /\ walk_tree plain_cfg
       (Dir "root"
          (Some [File "Banana" None; File "apple" None; File "Cherry" None;
                 Dir "Zeta" (Some [])]))
       "" 0
     = Ok ([entry_line "" BRANCH (format_entry "Zeta" true 0 "" false false);
            entry_line "" BRANCH "apple";
            entry_line "" BRANCH "Banana";
            entry_line "" LAST_BRANCH "Cherry"],
           {| dirs := 1; files := 3; name_matches := 0; content_matches := 0 |}).
Proof.
  split; [|split; [|split]].
  - intros name prefix depth Hcut. now rewrite walk_tree_dir, Hcut.
  - apply entries_perm.
  - intros l1 a l2 b l3 Heq. apply key_le_dirs_first.
    apply (strongly_sorted_pair _ l1 a l2 b l3).
    rewrite <- Heq. apply entries_sorted.
  - reflexivity.
Qed.

(** ** Counting matches *)

Lemma scan_count (ic : bool) (k : string) :
  k <> EmptyString ->
  forall s skip,
    Literal.none_within ic k skip s = true ->
    Literal.apart ic k s = true ->
    List.length (Literal.scan ic k skip s) = Literal.occurrences ic k s.
Proof.
  intros Hk. induction s as [|c s IH]; intros skip Hskip Hapart.
  - destruct k; [congruence|reflexivity].
  - cbn [Literal.apart] in Hapart. apply andb_prop in Hapart as [Hhere Hapart].
    cbn [Literal.scan Literal.occurrences].
    destruct skip as [|skip].
    + destruct (Literal.matches_at ic k (String c s)).
      * cbn [List.length]. now rewrite (IH _ Hhere Hapart).
      * now rewrite (IH 0%nat eq_refl Hapart).
    + cbn [Literal.none_within] in Hskip.
      apply andb_prop in Hskip as [Hno Hskip].
      apply negb_true_iff in Hno. rewrite Hno.
      now rewrite (IH _ Hskip Hapart).
Qed.

Lemma findall_count (ic : bool) (k s : string) :
  k <> EmptyString ->
  Literal.apart ic k s = true ->
  List.length (Literal.findall ic k s) = Literal.occurrences ic k s.
Proof.
  intros Hk Ha. unfold Literal.findall. now apply scan_count.
Qed.

Lemma eqc_conflict (ic : bool) (x y c : ascii) :
  Literal.norm ic x <> Literal.norm ic y ->
  Literal.eqc ic x c = true -> Literal.eqc ic y c = false.
Proof.
  unfold Literal.eqc. intros Hne Hx. apply Ascii.eqb_eq in Hx.
  apply Ascii.eqb_neq. congruence.
Qed.

Lemma norm_b_a (ic : bool) : Literal.norm ic "b" <> Literal.norm ic "a".
Proof. now destruct ic. Qed.

Lemma norm_b_r (ic : bool) : Literal.norm ic "b" <> Literal.norm ic "r".
Proof. now destruct ic. Qed.

Lemma norm_f_o (ic : bool) : Literal.norm ic "f" <> Literal.norm ic "o".
Proof. now destruct ic. Qed.

(** Two occurrences of [bar], or of [foo], cannot overlap. *)
Lemma apart_bar (ic : bool) (s : string) : Literal.apart ic "bar" s = true.
Proof.
  induction s as [|c0 s IH]; [reflexivity|].
  cbn [Literal.apart]. rewrite IH, andb_true_r.
  destruct (Literal.matches_at ic "bar" (String c0 s)) eqn:Hm; [|reflexivity].
  destruct s as [|c1 [|c2 s]]; cbn [Literal.matches_at] in Hm;
    rewrite ?andb_false_r in Hm; try discriminate.
  apply andb_prop in Hm as [_ Hm]. apply andb_prop in Hm as [H1 Hm].
  apply andb_prop in Hm as [H2 _].
  cbn [String.length Nat.sub Literal.none_within Literal.matches_at].
  assert (Literal.eqc ic "b" c1 = false) as ->.
  { apply Ascii.eqb_neq. unfold Literal.eqc in H1. apply Ascii.eqb_eq in H1.
    rewrite <- H1. apply norm_b_a. }
  assert (Literal.eqc ic "b" c2 = false) as ->.
  { apply Ascii.eqb_neq. unfold Literal.eqc in H2. apply Ascii.eqb_eq in H2.
    rewrite <- H2. apply norm_b_r. }
  now destruct s.
Qed.

Lemma apart_foo (ic : bool) (s : string) : Literal.apart ic "foo" s = true.
Proof.
  induction s as [|c0 s IH]; [reflexivity|].
  cbn [Literal.apart]. rewrite IH, andb_true_r.
  destruct (Literal.matches_at ic "foo" (String c0 s)) eqn:Hm; [|reflexivity].
  destruct s as [|c1 [|c2 s]]; cbn [Literal.matches_at] in Hm;
    rewrite ?andb_false_r in Hm; try discriminate.
  apply andb_prop in Hm as [_ Hm]. apply andb_prop in Hm as [H1 Hm].
  apply andb_prop in Hm as [H2 _].
  cbn [String.length Nat.sub Literal.none_within Literal.matches_at].
  assert (Literal.eqc ic "f" c1 = false) as ->.
  { apply Ascii.eqb_neq. unfold Literal.eqc in H1. apply Ascii.eqb_eq in H1.
    rewrite <- H1. apply norm_f_o. }
  assert (Literal.eqc ic "f" c2 = false) as ->.
  { apply Ascii.eqb_neq. unfold Literal.eqc in H2. apply Ascii.eqb_eq in H2.
    rewrite <- H2. apply norm_f_o. }
  now destruct s.
Qed.

Lemma scan_pattern_count (line : string) (st : Z * string) (c : Pattern) :
  fst (scan_pattern line st c)
  = fst st + Z.of_nat (List.length (findall c line)).
Proof.
  unfold scan_pattern. destruct st as [mc sn].
  destruct (findall c line); cbn [fst List.length]; lia.
Qed.

Lemma scan_line_count (cs : list Pattern) (line : string) (st : Z * string) :
  fst (scan_line cs st line)
  = fst st
    + fold_right Z.add 0
        (map (fun c => Z.of_nat (List.length (findall c line))) cs).
Proof.
  unfold scan_line. revert st.
  induction cs as [|c cs IH]; intros st; cbn [fold_left map fold_right]; [lia|].
  rewrite IH, scan_pattern_count. lia.
Qed.

Lemma scan_lines_from_count (cs : list Pattern) (lines : list string)
    (st : Z * string) :
  fst (fold_left (scan_line cs) lines st) = fst st + total_matches cs lines.
Proof.
  unfold total_matches. revert st.
  induction lines as [|l lines IH]; intros st; cbn [fold_left map fold_right];
    [lia|].
  rewrite IH, scan_line_count. lia.
Qed.

Lemma scan_lines_count (cs : list Pattern) (lines : list string) :
  fst (scan_lines cs lines) = total_matches cs lines.
Proof. unfold scan_lines. now rewrite scan_lines_from_count. Qed.

Lemma scanned_search_file (filepath : node) (pattern : string) (is_rx ic : bool)
    (data : list byte) (cs : list Pattern) :
  scanned filepath = true ->
  open_read filepath = Ok data ->
  compile_all (keywords pattern is_rx) is_rx ic = Ok cs ->
  search_file filepath pattern is_rx ic = scan_lines cs (readlines data).
Proof.
  unfold scanned. intros [He Hb]%andb_prop Hopen Hcs.
  apply negb_true_iff in He, Hb.
  unfold search_file, search_body. rewrite He, Hb, Hopen. cbn [bind].
  now rewrite Hcs.
Qed.

Lemma compile_all_literal (ks : list string) (ic : bool) :
  compile_all ks false ic = Ok (map (Lit ic) ks).
Proof.
  induction ks as [|k ks IH]; [reflexivity|].
  cbn [compile_all map]. unfold compile at 1. cbn [bind]. now rewrite IH.
Qed.

Lemma keywords_truthy (pattern k : string) :
  In k (keywords pattern false) -> k <> EmptyString.
Proof.
  unfold keywords. intros H. apply in_map_iff in H as (p & <- & H).
  apply filter_In in H as [_ H]. now destruct (PyStr.strip p).
Qed.

Lemma open_read_file (filepath : node) (data : list byte) :
  open_read filepath = Ok data -> is_dir filepath = false.
Proof. destruct filepath as [name [d|]|name l]; now intros H. Qed.

Lemma literal_name_compiles (cfg : Config) :
  is_regex cfg = false -> name_compiles cfg.
Proof.
  intros H. unfold name_compiles, compile. rewrite H.
  destruct (given (name_pattern cfg)); eauto.
Qed.

(** C4.  On a file that passes the two filters, the count [search_file]
    returns is the number of matches [findall] gives, summed over every
    line and every compiled pattern.  So for a pattern that is one keyword
    and a file of three lines, each with two occurrences of the keyword
    that do not overlap, the count is 6; and in the loop of the walker that
    file adds exactly 1 to [content_matches]. *)
Theorem search_file_counts_every_match (filepath : node) (pat : string)
    (ic : bool) (data : list byte) :
  scanned filepath = true ->
  open_read filepath = Ok data ->
  (forall is_rx cs,
     compile_all (keywords pat is_rx) is_rx ic = Ok cs ->
     fst (search_file filepath pat is_rx ic) = total_matches cs (readlines data))
  /\ (forall k l1 l2 l3,
        keywords pat false = [k] ->
        readlines data = [l1; l2; l3] ->
        (forall l, In l [l1; l2; l3] ->
                   Literal.occurrences ic k l = 2%nat
                   /\ Literal.apart ic k l = true) ->
        fst (search_file filepath pat false ic) = 6
        /\ forall cfg prefix current_depth n i w lines stats,
             search_pattern cfg = Some pat ->
             is_regex cfg = false ->
             ignore_case cfg = ic ->
             exists lines' stats',
               visit cfg prefix current_depth n (lines, stats) (i, (filepath, w))
               = Ok (lines', stats')
               /\ content_matches stats' = content_matches stats + 1).
Proof.
  intros Hscan Hopen. split.
  - intros is_rx cs Hcs.
    rewrite (scanned_search_file _ _ _ _ _ _ Hscan Hopen Hcs).
    apply scan_lines_count.
  - intros k l1 l2 l3 Hk Hlines Hocc.
    assert (Hne : k <> EmptyString)
      by (apply (keywords_truthy pat); rewrite Hk; now left).
    assert (Hsix : fst (search_file filepath pat false ic) = 6).
    { rewrite (scanned_search_file _ _ _ _ _ _ Hscan Hopen
                 (compile_all_literal _ ic)).
      rewrite scan_lines_count, Hk, Hlines.
      unfold total_matches. cbn [map fold_right findall].
      destruct (Hocc l1) as [H1 A1]; [simpl; auto|].
      destruct (Hocc l2) as [H2 A2]; [simpl; auto|].
      destruct (Hocc l3) as [H3 A3]; [simpl; auto|].
      rewrite !findall_count, H1, H2, H3 by assumption. reflexivity. }
    split; [exact Hsix|].
    intros cfg prefix depth n i w lines stats Hsp Hrx Hic.
    rewrite visit_eq.
    destruct (name_search_returns cfg filepath (literal_name_compiles cfg Hrx))
      as [nm ->].
    rewrite (open_read_file _ _ Hopen). cbn [bind].
    eexists _, _. split; [reflexivity|].
    assert (Hcs : content_search cfg filepath = search_file filepath pat false ic).
    { unfold content_search. rewrite Hsp, Hrx, Hic, (open_read_file _ _ Hopen).
      destruct pat; [discriminate Hk|reflexivity]. }
    rewrite Hcs, Hsix. destruct stats. cbn. lia.
Qed.

Lemma total_matches_cons (cs : list Pattern) (l : string) (lines : list string) :
  total_matches cs (l :: lines)
  = fold_right Z.add 0 (map (fun c => Z.of_nat (List.length (findall c l))) cs)
    + total_matches cs lines.
Proof. reflexivity. Qed.

Lemma total_foo_bar (ic : bool) (lines : list string) :
  total_matches [Lit ic "foo"; Lit ic "bar"] lines
  = Z.of_nat (occurrences_in ic "foo" lines + occurrences_in ic "bar" lines).
Proof.
  induction lines as [|l lines IH]; [reflexivity|].
  rewrite total_matches_cons, IH. unfold occurrences_in.
  cbn [map fold_right findall].
  rewrite !findall_count by (discriminate || apply apart_foo || apply apart_bar).
  lia.
Qed.

(** C5.  Without [is_regex] the pattern is split at its commas into
    keywords, each stripped, the empty ones left out, and each compiled as a
    literal, so that a metacharacter stands for itself.  With the pattern
    "foo,bar", on a file that passes the two filters and whose lines hold
    "bar" once and "foo" nowhere, [search_file] counts exactly 1. *)
Theorem comma_split_keywords (filepath : node) (ic : bool) (data : list byte) :
  keywords "foo,bar" false = ["foo"; "bar"]
  /\ keywords " foo ,, bar," false = ["foo"; "bar"]
  /\ (forall ks, compile_all ks false ic = Ok (map (Lit ic) ks))
  /\ findall (Lit false "a.b") "axb a.b" = ["a.b"]
  /\ (scanned filepath = true ->
      open_read filepath = Ok data ->
      occurrences_in ic "bar" (readlines data) = 1%nat ->
      occurrences_in ic "foo" (readlines data) = 0%nat ->
      fst (search_file filepath "foo,bar" false ic) = 1).
Proof.
  split; [reflexivity|]. split; [reflexivity|].
  split; [intros ks; apply compile_all_literal|]. split; [reflexivity|].
  intros Hscan Hopen Hbar Hfoo.
  rewrite (scanned_search_file _ _ _ _ _ _ Hscan Hopen (compile_all_literal _ ic)).
  rewrite scan_lines_count.
  change (keywords "foo,bar" false) with ["foo"; "bar"]. cbn [map].
  now rewrite total_foo_bar, Hbar, Hfoo.
Qed.

End Properties.



(** [shinju -r -s x -n "(" root], with one file in [root]: [re.error]. *)
Lemma walk_raises_on_bad_name_regex_witness :
  walk_tree (rt := Plain.runtime) bad_name_cfg
    (Dir "root" (Some [File "a" (Some [])])) "" 0
  = Raise ReError.
Proof.
  refine (proj1 (walk_raises_on_bad_name_regex (rt := Plain.runtime)
                   bad_name_cfg "root" [File "a" (Some [])] "" 0 "("
                   eq_refl eq_refl eq_refl eq_refl _)).
  discriminate.
Defined.

(** The three lines of [notes] hold "ab" twice each: the count is 6, and the
    loop of the walker adds one content match. *)
Lemma search_file_counts_every_match_witness :
  fst (search_file (rt := Plain.runtime) notes "ab" false false) = 6
  /\ exists lines' stats',
       visit (rt := Plain.runtime) ab_cfg "" 0 1 ([], zero_stats)
         (0, (notes, fun _ _ => Raise OSError))
       = Ok (lines', stats')
       /\ content_matches stats' = content_matches zero_stats + 1.
Proof.
  pose proof (search_file_counts_every_match (rt := Plain.runtime) notes "ab"
                false (Plain.bytes_of ("ab ab" ++ nl ++ "ab-ab" ++ nl ++ "xabab" ++ nl))
                eq_refl eq_refl) as [_ H].
  destruct (H "ab" ("ab ab" ++ nl) ("ab-ab" ++ nl) ("xabab" ++ nl) eq_refl eq_refl)
    as [Hsix Hvisit].
  - intros l [<-|[<-|[<-|[]]]]; split; reflexivity.
  - split; [exact Hsix|].
    exact (Hvisit ab_cfg "" 0 1 0 (fun _ _ => Raise OSError) [] zero_stats
             eq_refl eq_refl eq_refl).
Defined.

(** A file that says "a bar": one match for "foo,bar". *)
Lemma comma_split_keywords_witness :
  fst (search_file (rt := Plain.runtime)
         (File "menu.txt" (Some (Plain.bytes_of "a bar"))) "foo,bar" false true)
  = 1.
Proof.
  exact (proj2 (proj2 (proj2 (proj2
           (comma_split_keywords (rt := Plain.runtime)
              (File "menu.txt" (Some (Plain.bytes_of "a bar"))) true
              (Plain.bytes_of "a bar")))))
           eq_refl eq_refl eq_refl eq_refl).
Defined.

(** [shinju -L 0]: nothing below the root. *)
Lemma walk_depth_cutoff_witness :
  walk_tree (rt := Plain.runtime) root_only_cfg small_tree "" 0
  = Ok ([], zero_stats)
  /\ walk_tree (rt := Plain.runtime) root_only_cfg small_tree "│   " 3
     = Ok ([], zero_stats).
Proof.
  split.
  - exact (proj2 (walk_depth_cutoff (rt := Plain.runtime) root_only_cfg
                    small_tree "" 0 0 eq_refl) eq_refl).
  - refine (proj1 (walk_depth_cutoff (rt := Plain.runtime) root_only_cfg
                     small_tree "│   " 3 0 eq_refl) _).
    discriminate.
Defined.

(** In [mixed_listing] the directories Y and z come first, in that order,
    then the files A and b. *)
Lemma entries_dirs_first_by_name_witness :
  (is_dir (Dir "z" (Some [])) = true -> is_dir (Dir "Y" None) = true)
  /\ String.leb (PyStr.lower "A") (PyStr.lower "b") = true.
Proof.
  pose proof (entries_dirs_first_by_name (rt := Plain.runtime) plain_cfg
                mixed_listing) as (_ & _ & H & _).
  split.
  - exact (proj1 (H [] (Dir "Y" None) [] (Dir "z" (Some []))
                    [File "A" None; File "b" None] eq_refl)).
  - exact (proj2 (H [Dir "Y" None; Dir "z" (Some [])] (File "A" None) []
                    (File "b" None) [] eq_refl) eq_refl).
Defined.

(** An archive by its extension in capitals, a file with a null byte, a
    file that cannot be read. *)
Lemma search_file_rejects_witness :
  search_file (rt := Plain.runtime) (File "backup.TAR.GZ" (Some [])) "x" false false
  = (0, "")
  /\ search_file (rt := Plain.runtime) (File "b.bin" (Some [x61; x00])) "a" false false
     = (0, "")
  /\ search_file (rt := Plain.runtime) (File "locked.txt" None) "a" true false
     = (0, "").
Proof.
  split; [|split].
  - exact (proj1 (proj2 (search_file_rejects (rt := Plain.runtime)
                           (File "backup.TAR.GZ" (Some [])) "x" false false))
             eq_refl).
  - exact (proj2 (proj1 (proj2 (proj2 (search_file_rejects (rt := Plain.runtime)
                           (File "b.bin" (Some [x61; x00])) "a" false false)))
                    [x61; x00] eq_refl (or_intror (or_introl eq_refl)))).
  - exact (proj2 (proj2 (proj2 (proj2 (search_file_rejects (rt := Plain.runtime)
                           (File "locked.txt" None) "a" true false)))
                    PermissionError eq_refl)).
Defined.

(** [shinju -d -s x] on [small_tree]: one directory, no file, no content
    match. *)
Lemma dirs_only_counts_no_file_witness :
  files {| dirs := 1; files := 0; name_matches := 0; content_matches := 0 |} = 0
  /\ content_matches
       {| dirs := 1; files := 0; name_matches := 0; content_matches := 0 |} = 0.
Proof.
  exact (proj1 (dirs_only_counts_no_file (rt := Plain.runtime) dirs_cfg
                  small_tree "" 0 eq_refl)
           [entry_line "" LAST_BRANCH (format_entry "b" true 0 "" false true)]
           {| dirs := 1; files := 0; name_matches := 0; content_matches := 0 |}
           eq_refl).
Defined.

(** * More properties of the program *)

(** ** Literal matching *)

Lemma matches_at_length (ic : bool) (k s : string) :
  Literal.matches_at ic k s = true -> (String.length k <= String.length s)%nat.
Proof.
  revert s. induction k as [|a k IH]; intros [|b s]; simpl;
    try lia; try discriminate.
  intros [_ H]%andb_prop. apply IH in H. lia.
Qed.

Lemma matches_at_take (ic : bool) (k s : string) :
  Literal.matches_at ic k s = true ->
  String.length (PyStr.take (String.length k) s) = String.length k
  /\ Literal.matches_at ic k (PyStr.take (String.length k) s) = true.
Proof.
  revert s. induction k as [|a k IH]; intros [|b s]; simpl;
    auto; try discriminate.
  intros [Hab H]%andb_prop. destruct (IH s H) as [Hl Hm].
  now rewrite Hl, Hab, Hm.
Qed.

Lemma matches_at_exact (k s : string) :
  Literal.matches_at false k s = true -> PyStr.take (String.length k) s = k.
Proof.
  revert s. induction k as [|a k IH]; intros [|b s]; simpl;
    auto; try discriminate.
  intros [Hab H]%andb_prop. apply Ascii.eqb_eq in Hab. cbn in Hab.
  now rewrite (IH s H), Hab.
Qed.

Lemma scan_items (ic : bool) (k : string) (s : string) :
  forall skip m,
    In m (Literal.scan ic k skip s) ->
    String.length m = String.length k
    /\ Literal.matches_at ic k m = true
    /\ (ic = false -> m = k).
Proof.
  induction s as [|c s IH]; intros skip m Hin.
  - destruct k; [|contradiction]. destruct Hin as [<-|[]]. auto.
  - cbn [Literal.scan] in Hin. destruct skip as [|skip]; [|now apply (IH skip)].
    destruct (Literal.matches_at ic k (String c s)) eqn:Hm; [|now apply (IH 0%nat)].
    destruct Hin as [<-|Hin]; [|now apply (IH _ _ Hin)].
    destruct (matches_at_take _ _ _ Hm) as [Hl Ht].
    repeat split; auto. intros ->. now apply matches_at_exact.
Qed.

Lemma scan_room (ic : bool) (k : string) (s : string) :
  forall skip,
    (List.length (Literal.scan ic k skip s) * String.length k
     <= String.length s - skip)%nat.
Proof.
  destruct k as [|a k]; [intros; rewrite Nat.mul_0_r; lia|].
  set (kw := String a k).
  induction s as [|c s IH]; intros skip; [simpl; lia|].
  cbn [Literal.scan]. destruct skip as [|skip].
  - destruct (Literal.matches_at ic kw (String c s)) eqn:Hm.
    + apply matches_at_length in Hm. specialize (IH (String.length kw - 1)%nat).
      cbn [List.length String.length] in *. lia.
    + specialize (IH 0%nat). cbn [String.length]. lia.
  - specialize (IH skip). cbn [String.length]. lia.
Qed.

(** What [findall] gives for a literal: each item is a piece of the
    line as long as the keyword and equal to it (up to case with
    IGNORECASE, exactly without), and the items fit in the line side by
    side. *)
Lemma findall_literal_items (ic : bool) (k s : string) :
  (forall m, In m (Literal.findall ic k s) ->
             String.length m = String.length k
             /\ Literal.matches_at ic k m = true
             /\ (ic = false -> m = k))
  /\ (List.length (Literal.findall ic k s) * String.length k
      <= String.length s)%nat.
Proof.
  split.
  - intros m. apply scan_items.
  - pose proof (scan_room ic k s 0). unfold Literal.findall. lia.
Qed.

Lemma search_scan (ic : bool) (k s : string) :
  Literal.search ic k s = true <-> Literal.scan ic k 0 s <> [].
Proof.
  induction s as [|c s IH].
  - destruct k; simpl; split; congruence.
  - cbn [Literal.search Literal.scan].
    destruct (Literal.matches_at ic k (String c s)); cbn [orb].
    + split; congruence.
    + exact IH.
Qed.

Lemma search_occurrences (ic : bool) (k s : string) :
  Literal.search ic k s = true <-> (0 < Literal.occurrences ic k s)%nat.
Proof.
  induction s as [|c s IH].
  - simpl. destruct (Literal.matches_at ic k ""); simpl; split; (lia || congruence).
  - cbn [Literal.search Literal.occurrences].
    destruct (Literal.matches_at ic k (String c s)); cbn [orb].
    + split; [lia|reflexivity].
    + rewrite IH. simpl. reflexivity.
Qed.

(** Every match without IGNORECASE is a match with it. *)
Lemma matches_at_ignore_case (k s : string) :
  Literal.matches_at false k s = true -> Literal.matches_at true k s = true.
Proof.
  revert s. induction k as [|a k IH]; intros [|b s]; simpl; auto.
  intros [Hab H]%andb_prop. apply Ascii.eqb_eq in Hab. cbn in Hab. subst b.
  rewrite (IH s H). unfold Literal.eqc. now rewrite Ascii.eqb_refl.
Qed.

(** The scan with IGNORECASE keeps up with the scan without it: it finds as
    many matches when it has no more to skip, and at most one fewer
    otherwise. *)
Lemma scan_ignore_case (k : string) (s : string) :
  forall skip1 skip2,
    (skip1 <= String.length k - 1)%nat ->
    (skip2 <= String.length k - 1)%nat ->
    (List.length (Literal.scan false k skip1 s)
     <= S (List.length (Literal.scan true k skip2 s)))%nat
    /\ ((skip2 <= skip1)%nat ->
        (List.length (Literal.scan false k skip1 s)
         <= List.length (Literal.scan true k skip2 s))%nat).
Proof.
  induction s as [|c s IH]; intros skip1 skip2 H1 H2.
  - destruct k; simpl; lia.
  - cbn [Literal.scan].
    pose proof (matches_at_ignore_case k (String c s)) as Himp.
    destruct skip1 as [|n1], skip2 as [|n2].
    + destruct (Literal.matches_at false k (String c s)).
      * rewrite (Himp eq_refl). cbn [List.length].
        destruct (IH (String.length k - 1)%nat (String.length k - 1)%nat); lia.
      * destruct (Literal.matches_at true k (String c s)); cbn [List.length].
        -- destruct (IH 0%nat (String.length k - 1)%nat); lia.
        -- destruct (IH 0%nat 0%nat); lia.
    + destruct (Literal.matches_at false k (String c s)); cbn [List.length].
      * destruct (IH (String.length k - 1)%nat n2); lia.
      * destruct (IH 0%nat n2); lia.
    + destruct (Literal.matches_at true k (String c s)); cbn [List.length].
      * destruct (IH n1 (String.length k - 1)%nat); lia.
      * destruct (IH n1 0%nat); lia.
    + destruct (IH n1 n2); lia.
Qed.

Lemma findall_ignore_case (k s : string) :
  (List.length (Literal.findall false k s)
   <= List.length (Literal.findall true k s))%nat.
Proof.
  unfold Literal.findall. destruct (scan_ignore_case k s 0 0); lia.
Qed.

Section MoreProperties.

Context {rt : Runtime}.

(** ** The count and the snippet of [search_file] *)

Lemma snippet_of_truthy (m l : string) : PyStr.truthy (snippet_of m l) = true.
Proof. reflexivity. Qed.

Lemma scan_pattern_inv (line : string) (st : Z * string) (c : Pattern) :
  count_and_snippet st -> count_and_snippet (scan_pattern line st c).
Proof.
  unfold count_and_snippet, scan_pattern. destruct st as [mc sn]. cbn [fst snd].
  intros [H0 Hiff]. destruct (findall c line) as [|m ms]; [now split|].
  cbn [fst snd List.length]. split; [lia|].
  destruct (PyStr.truthy sn) eqn:Ht.
  - rewrite Ht. split; [reflexivity|lia].
  - rewrite snippet_of_truthy. split; [reflexivity|lia].
Qed.

Lemma scan_line_inv (cs : list Pattern) (line : string) (st : Z * string) :
  count_and_snippet st -> count_and_snippet (scan_line cs st line).
Proof.
  unfold scan_line. revert st.
  induction cs as [|c cs IH]; intros st H; [exact H|].
  cbn [fold_left]. apply IH. now apply scan_pattern_inv.
Qed.

Lemma scan_lines_inv (cs : list Pattern) (lines : list string) :
  count_and_snippet (scan_lines cs lines).
Proof.
  unfold scan_lines.
  assert (H : count_and_snippet (0, "")) by (split; cbn; [lia|split; [lia|discriminate]]).
  revert H. generalize (0, "").
  induction lines as [|l lines IH]; intros st H; [exact H|].
  cbn [fold_left]. apply IH. now apply scan_line_inv.
Qed.

Lemma search_file_cases (filepath : node) (pat : string) (is_rx ic : bool) :
  search_file filepath pat is_rx ic = (0, "")
  \/ exists data cs,
       open_read filepath = Ok data
       /\ scanned filepath = true
       /\ compile_all (keywords pat is_rx) is_rx ic = Ok cs
       /\ search_file filepath pat is_rx ic = scan_lines cs (readlines data).
Proof.
  unfold search_file, scanned, search_body.
  destruct (str_in _ EXCLUDE_EXTENSIONS); [now left|].
  destruct (is_binary_file filepath) eqn:Hb; [now left|].
  destruct (open_read filepath) as [data|e]; [|now left]. cbn [bind].
  destruct (compile_all _ _ _) as [cs|e]; [|now left]. cbn [bind].
  right. exists data, cs. auto.
Qed.

(** X1.  [search_file] never gives a negative count, and it gives a snippet
    exactly when the count is not zero. *)
Theorem search_file_snippet_iff_match (filepath : node) (pat : string)
    (is_rx ic : bool) :
  0 <= fst (search_file filepath pat is_rx ic)
  /\ (fst (search_file filepath pat is_rx ic) = 0
      <-> snd (search_file filepath pat is_rx ic) = "").
Proof.
  destruct (search_file_cases filepath pat is_rx ic)
    as [->|(data & cs & _ & _ & _ & ->)].
  - cbn. split; [lia|tauto].
  - destruct (scan_lines_inv cs (readlines data)) as [H0 Hiff].
    split; [exact H0|].
    destruct (snd (scan_lines cs (readlines data))); cbn in Hiff.
    + split; [reflexivity|]. intros _.
      destruct (Z.eq_dec (fst (scan_lines cs (readlines data))) 0) as [E|E];
        [exact E|].
      assert (0 < fst (scan_lines cs (readlines data))) as Hpos by lia.
      apply Hiff in Hpos. discriminate.
    + split; [|discriminate]. intros E.
      assert (0 < fst (scan_lines cs (readlines data))) by now apply Hiff.
      lia.
Qed.

Lemma scan_pattern_keeps (line : string) (st : Z * string) (c : Pattern) :
  PyStr.truthy (snd st) = true -> snd (scan_pattern line st c) = snd st.
Proof.
  unfold scan_pattern. destruct st as [mc sn]. cbn [snd]. intros H.
  destruct (findall c line); cbn [snd]; [reflexivity|]. now rewrite H.
Qed.

Lemma scan_line_keeps (cs : list Pattern) (line : string) (st : Z * string) :
  PyStr.truthy (snd st) = true -> snd (scan_line cs st line) = snd st.
Proof.
  unfold scan_line. revert st.
  induction cs as [|c cs IH]; intros st H; [reflexivity|].
  cbn [fold_left]. rewrite IH; rewrite scan_pattern_keeps; auto.
Qed.

Lemma scan_rest_keeps (cs : list Pattern) (lines : list string) (st : Z * string) :
  PyStr.truthy (snd st) = true ->
  snd (fold_left (scan_line cs) lines st) = snd st.
Proof.
  revert st. induction lines as [|l lines IH]; intros st H; [reflexivity|].
  cbn [fold_left]. rewrite IH; rewrite scan_line_keeps; auto.
Qed.

Lemma scan_line_no_match (cs : list Pattern) (line : string) (st : Z * string) :
  Forall (fun c => findall c line = []) cs -> scan_line cs st line = st.
Proof.
  unfold scan_line. induction 1 as [|c cs Hc _ IH]; [reflexivity|].
  cbn [fold_left]. unfold scan_pattern at 2. destruct st. now rewrite Hc.
Qed.

Lemma scan_lines_no_match (cs : list Pattern) (lines : list string)
    (st : Z * string) :
  Forall (fun l => Forall (fun c => findall c l = []) cs) lines ->
  fold_left (scan_line cs) lines st = st.
Proof.
  induction 1 as [|l lines Hl _ IH]; [reflexivity|].
  cbn [fold_left]. now rewrite (scan_line_no_match _ _ _ Hl).
Qed.

(** X2.  The snippet comes from the first line with a match and, on that
    line, from the first pattern that matches: it shows the first item of
    that [findall] and that line. *)
Theorem search_file_snippet_first_match (filepath : node) (pat : string)
    (is_rx ic : bool) (data : list byte)
    (before after : list string) (line : string)
    (cs_before cs_after : list Pattern) (c : Pattern) (m : string)
    (ms : list string) :
  scanned filepath = true ->
  open_read filepath = Ok data ->
  compile_all (keywords pat is_rx) is_rx ic = Ok (cs_before ++ c :: cs_after)%list ->
  readlines data = (before ++ line :: after)%list ->
  Forall (fun l => Forall (fun c' => findall c' l = []) (cs_before ++ c :: cs_after))
    before ->
  Forall (fun c' => findall c' line = []) cs_before ->
  findall c line = m :: ms ->
  snd (search_file filepath pat is_rx ic) = snippet_of m line.
Proof.
  intros Hscan Hopen Hcs Hlines Hbefore Hcsb Hm.
  rewrite (scanned_search_file _ _ _ _ _ _ Hscan Hopen Hcs), Hlines.
  unfold scan_lines. rewrite fold_left_app, (scan_lines_no_match _ _ _ Hbefore).
  cbn [fold_left].
  assert (Hl : snd (scan_line (cs_before ++ c :: cs_after) (0, "") line)
               = snippet_of m line).
  { unfold scan_line. rewrite fold_left_app.
    fold (scan_line cs_before (0, "") line).
    rewrite (scan_line_no_match _ _ _ Hcsb). cbn [fold_left].
    fold (scan_line cs_after (scan_pattern line (0, "") c) line).
    rewrite scan_line_keeps; unfold scan_pattern; rewrite Hm; reflexivity. }
  rewrite scan_rest_keeps; rewrite Hl; [reflexivity|apply snippet_of_truthy].
Qed.

Lemma take_length (n : nat) (s : string) :
  (n <= String.length s)%nat -> String.length (PyStr.take n s) = n.
Proof.
  revert s. induction n as [|n IH]; intros [|c s]; simpl; try lia.
  intros H. rewrite IH; lia.
Qed.

Lemma append_length (s t : string) :
  String.length (s ++ t) = (String.length s + String.length t)%nat.
Proof. induction s as [|c s IH]; simpl; [reflexivity|now rewrite IH]. Qed.

(** X3.  The line a snippet shows is the stripped line when that has at most
    50 characters, else its first 50 characters and three dots: never more
    than 53 characters. *)
Theorem snippet_line_is_cut (first_match line : string) :
  exists shown_line,
    snippet_of first_match line
    = "['" ++ first_match ++ "' => '" ++ shown_line ++ "']"
    /\ (String.length shown_line <= 53)%nat
    /\ ((String.length (PyStr.strip line) <= 50)%nat ->
        shown_line = PyStr.strip line)
    /\ ((50 < String.length (PyStr.strip line))%nat ->
        shown_line = PyStr.take 50 (PyStr.strip line) ++ "...").
Proof.
  unfold snippet_of, PyStr.len.
  destruct (50 <? Z.of_nat (String.length (PyStr.strip line))) eqn:Hlen.
  - apply Z.ltb_lt in Hlen.
    exists (PyStr.take 50 (PyStr.strip line) ++ "..."). split; [reflexivity|].
    split; [|split; [lia|reflexivity]].
    rewrite append_length, take_length by lia. simpl. lia.
  - apply Z.ltb_ge in Hlen.
    exists (PyStr.strip line). split; [reflexivity|].
    split; [lia|]. split; [reflexivity|lia].
Qed.

(** ** Patterns that find more, and patterns that find nothing *)

Lemma total_matches_ignore_case (ks : list string) (lines : list string) :
  total_matches (map (Lit false) ks) lines
  <= total_matches (map (Lit true) ks) lines.
Proof.
  induction lines as [|l lines IH]; [reflexivity|].
  rewrite !total_matches_cons.
  assert (fold_right Z.add 0
            (map (fun c => Z.of_nat (List.length (findall c l))) (map (Lit false) ks))
          <= fold_right Z.add 0
               (map (fun c => Z.of_nat (List.length (findall c l))) (map (Lit true) ks))).
  { clear IH. induction ks as [|k ks IHk]; [reflexivity|].
    cbn [map fold_right].
    change (findall (Lit false k) l) with (Literal.findall false k l).
    change (findall (Lit true k) l) with (Literal.findall true k l).
    pose proof (findall_ignore_case k l). lia. }
  lia.
Qed.

Lemma search_ignore_case (k s : string) :
  Literal.search false k s = true -> Literal.search true k s = true.
Proof.
  induction s as [|c s IH]; cbn [Literal.search].
  - rewrite !orb_false_r. apply matches_at_ignore_case.
  - intros [H|H]%orb_prop; apply orb_true_iff.
    + left. now apply matches_at_ignore_case.
    + right. now apply IH.
Qed.

(** X4.  Without [is_regex], turning [ignore_case] on never lowers the count
    of a file, and never loses a name match. *)
Theorem ignore_case_finds_no_less (filepath : node) (pat : string) :
  fst (search_file filepath pat false false)
  <= fst (search_file filepath pat false true)
  /\ forall name,
       search (Lit false pat) name = true -> search (Lit true pat) name = true.
Proof.
  split; [|intros name; apply search_ignore_case].
  unfold search_file, search_body.
  destruct (str_in _ EXCLUDE_EXTENSIONS); [reflexivity|].
  destruct (is_binary_file filepath); [reflexivity|].
  destruct (open_read filepath) as [data|e]; [|reflexivity]. cbn [bind].
  rewrite !compile_all_literal. cbn [bind].
  rewrite !scan_lines_count. apply total_matches_ignore_case.
Qed.

Lemma scan_lines_no_pattern (lines : list string) :
  scan_lines [] lines = (0, "").
Proof.
  unfold scan_lines. apply scan_lines_no_match.
  apply Forall_forall. intros l _. constructor.
Qed.

Lemma keywords_blank (pat : string) :
  (forall q, In q (PyStr.split_comma pat) -> PyStr.strip q = "") ->
  keywords pat false = [].
Proof.
  intros H. unfold keywords.
  induction (PyStr.split_comma pat) as [|q qs IH]; [reflexivity|].
  cbn [filter]. rewrite (H q (or_introl eq_refl)). cbn [PyStr.truthy].
  apply IH. intros q' Hq'. apply H. now right.
Qed.

(** X5.  Without [is_regex], a pattern with nothing but blanks between its
    commas holds no keyword: [search_file] finds nothing in any file, and
    the walk counts no content match for it. *)
Theorem blank_pattern_finds_nothing (pat : string) (ic : bool) :
  (forall q, In q (PyStr.split_comma pat) -> PyStr.strip q = "") ->
  (forall filepath, search_file filepath pat false ic = (0, ""))
  /\ forall cfg e,
       search_pattern cfg = Some pat -> is_regex cfg = false ->
       ignore_case cfg = ic ->
       content_hit cfg e = false.
Proof.
  intros Hblank.
  assert (Hsf : forall filepath, search_file filepath pat false ic = (0, "")).
  { intros filepath.
    destruct (search_file_cases filepath pat false ic)
      as [H|(data & cs & _ & _ & Hcs & ->)]; [exact H|].
    rewrite (keywords_blank pat Hblank) in Hcs. cbn in Hcs.
    injection Hcs as <-. apply scan_lines_no_pattern. }
  split; [exact Hsf|].
  intros cfg e Hsp Hrx Hic. unfold content_hit, content_search.
  rewrite Hsp, Hrx, Hic. cbn [given].
  destruct (PyStr.truthy pat); [|reflexivity].
  destruct (negb (is_dir e)); [|reflexivity]. now rewrite Hsf.
Qed.

(** X6.  With [is_regex], a search pattern that does not compile makes
    [search_file] give a zero count and no snippet for every file: the
    error is caught there, and the walk counts no content match. *)
Theorem bad_search_regex_finds_nothing (pat : string) (ic : bool) :
  re_compile pat ic = None ->
  (forall filepath, search_file filepath pat true ic = (0, ""))
  /\ forall cfg e,
       search_pattern cfg = Some pat -> is_regex cfg = true ->
       ignore_case cfg = ic ->
       content_hit cfg e = false.
Proof.
  intros Hbad.
  assert (Hsf : forall filepath, search_file filepath pat true ic = (0, "")).
  { intros filepath.
    destruct (search_file_cases filepath pat true ic)
      as [H|(data & cs & _ & _ & Hcs & _)]; [exact H|].
    cbn in Hcs. unfold compile in Hcs. rewrite Hbad in Hcs. discriminate. }
  split; [exact Hsf|].
  intros cfg e Hsp Hrx Hic. unfold content_hit, content_search.
  rewrite Hsp, Hrx, Hic. cbn [given].
  destruct (PyStr.truthy pat); [|reflexivity].
  destruct (negb (is_dir e)); [|reflexivity]. now rewrite Hsf.
Qed.

(** ** The extension of a name *)

Lemma rfind_no_dot (ext : string) (i found : Z) :
  no_dot ext = true -> PyStr.rfind_dot_from i found ext = found.
Proof.
  revert i found. induction ext as [|c ext IH]; intros i found; [reflexivity|].
  cbn [no_dot PyStr.rfind_dot_from]. intros [Hc H]%andb_prop.
  apply negb_true_iff in Hc. rewrite Hc. now apply IH.
Qed.

Lemma rfind_last_dot (stem ext : string) (i found : Z) :
  no_dot ext = true ->
  PyStr.rfind_dot_from i found (stem ++ "." ++ ext)
  = i + Z.of_nat (String.length stem).
Proof.
  intros Hext. revert i found.
  induction stem as [|c stem IH]; intros i found.
  - cbn. rewrite rfind_no_dot by exact Hext. lia.
  - cbn [String.append PyStr.rfind_dot_from String.length].
    rewrite IH. lia.
Qed.

Lemma drop_append (stem t : string) :
  PyStr.drop (String.length stem) (stem ++ t) = t.
Proof.
  induction stem as [|c stem IH]; [now destruct t|]. exact IH.
Qed.

Lemma lstrip_dot_no_dot (ext : string) :
  no_dot ext = true -> PyStr.lstrip_dot ext = ext.
Proof.
  destruct ext as [|c ext]; [reflexivity|].
  cbn [no_dot]. intros [Hc _]%andb_prop. apply negb_true_iff in Hc.
  apply Ascii.eqb_neq in Hc. cbn [PyStr.lstrip_dot].
  destruct c as [[|] [|] [|] [|] [|] [|] [|] [|]]; try reflexivity.
  now contradiction Hc.
Qed.

(** X7.  The extension [search_file] looks at is what follows the last dot
    of the name.  A file named stem.ext, with a stem and an extension that
    are not empty, is left unread when the extension in lower case is an
    excluded one, whatever is in it; a name that is only a dot and an
    extension has no extension for this test. *)
Theorem extension_after_last_dot (stem ext : string) (data : option (list byte)) :
  no_dot ext = true ->
  (stem <> "" -> ext <> "" ->
   suffix (File (stem ++ "." ++ ext) data) = "." ++ ext
   /\ (str_in (PyStr.lower ext) EXCLUDE_EXTENSIONS = true ->
       forall pat is_rx ic,
         search_file (File (stem ++ "." ++ ext) data) pat is_rx ic = (0, "")))
  /\ suffix (File ("." ++ ext) data) = "".
Proof.
  intros Hext. split.
  - intros Hstem Hne.
    assert (Hsuf : suffix (File (stem ++ "." ++ ext) data) = "." ++ ext).
    { unfold suffix, PyStr.rfind_dot. cbn [node_name].
      rewrite rfind_last_dot by exact Hext.
      destruct ((0 <? 0 + Z.of_nat (String.length stem))
                && (0 + Z.of_nat (String.length stem)
                    <? PyStr.len (stem ++ "." ++ ext) - 1)) eqn:Hc.
      - rewrite Z.add_0_l, Nat2Z.id. apply drop_append.
      - exfalso. unfold PyStr.len in Hc. rewrite !append_length in Hc.
        apply andb_false_iff in Hc as [Hc|Hc]; apply Z.ltb_ge in Hc.
        + destruct stem; [congruence|cbn [String.length] in Hc; lia].
        + destruct ext; [congruence|cbn [String.length] in Hc; lia]. }
    split; [exact Hsuf|].
    intros Hex pat is_rx ic. unfold search_file. rewrite Hsuf.
    change (PyStr.lstrip_dot ("." ++ ext)) with (PyStr.lstrip_dot ext).
    now rewrite (lstrip_dot_no_dot ext Hext), Hex.
  - unfold suffix, PyStr.rfind_dot. cbn [node_name].
    pose proof (rfind_last_dot "" ext 0 (-1) Hext) as H.
    cbn [String.append String.length] in H |- *. now rewrite H.
Qed.

(** ** Bounds on the counters and on the lines *)

Lemma count_le (P Q : node -> bool) (l : list node) :
  (forall e, P e = true -> Q e = true) -> count P l <= count Q l.
Proof.
  intros H. unfold count.
  induction l as [|x l IH]; [reflexivity|]. cbn [filter].
  destruct (P x) eqn:HP.
  - rewrite (H x HP). cbn [List.length]. lia.
  - destruct (Q x); cbn [List.length]; lia.
Qed.

Lemma count_le_length (P : node -> bool) (l : list node) :
  count P l <= Z.of_nat (List.length l).
Proof.
  unfold count. pose proof (filter_length_le P l). lia.
Qed.

Lemma content_hit_file (cfg : Config) (e : node) :
  content_hit cfg e = true -> negb (is_dir e) = true.
Proof.
  unfold content_hit. destruct (is_dir e) eqn:Hd; [|reflexivity].
  now rewrite (content_search_dir cfg e Hd).
Qed.

(** X8.  The counters a walk returns are never negative; there are at most
    as many content matches as files, and at most as many name matches as
    entries. *)
Theorem walk_stats_bounds (cfg : Config) (d : node) (prefix : string)
    (current_depth : Z) (lines : list string) (st : Stats) :
  walk_tree cfg d prefix current_depth = Ok (lines, st) ->
  0 <= dirs st /\ 0 <= files st
  /\ 0 <= name_matches st <= dirs st + files st
  /\ 0 <= content_matches st <= files st.
Proof.
  intros Hrun. rewrite (walk_tally _ _ _ _ _ _ Hrun).
  pose proof (files_dirs_length cfg (reachable cfg current_depth d)) as Hlen.
  unfold tally in *. cbn [dirs files name_matches content_matches] in *.
  pose proof (count_nonneg is_dir (reachable cfg current_depth d)).
  pose proof (count_nonneg (fun e => negb (is_dir e)) (reachable cfg current_depth d)).
  pose proof (count_nonneg (name_hit cfg) (reachable cfg current_depth d)).
  pose proof (count_nonneg (content_hit cfg) (reachable cfg current_depth d)).
  pose proof (count_le_length (name_hit cfg) (reachable cfg current_depth d)).
  pose proof (count_le (content_hit cfg) (fun e => negb (is_dir e))
                (reachable cfg current_depth d) (content_hit_file cfg)).
  lia.
Qed.

Lemma refused_file (cfg : Config) (depth : Z) (e : node) :
  is_dir e = false -> refused cfg depth e = [].
Proof.
  destruct e; [|discriminate]. intros _. simpl.
  now destruct (depth_cut cfg depth).
Qed.

Lemma refused_dir (cfg : Config) (depth : Z) (name : string)
    (children : list node) :
  depth_cut cfg depth = false ->
  Permutation
    (refused cfg depth (Dir name (Some children)))
    (flat_map (refused cfg (depth + 1)) (entries cfg children)).
Proof.
  intros Hcut. simpl. rewrite Hcut.
  rewrite <- (flat_map_filter (shown cfg) (refused cfg (depth + 1))).
  apply Permutation_flat_map. symmetry. apply entries_perm.
Qed.

Lemma for_each_line_count (cfg : Config) (prefix : string) (current_depth n : Z)
    (es : list node) :
  Forall (fun e => forall p d lines st,
            walk_tree cfg e p d = Ok (lines, st) ->
            (List.length lines <= room cfg d e)%nat
            /\ (match_only cfg = false -> List.length lines = room cfg d e)) es ->
  forall i acc lines st,
    for_each cfg prefix current_depth n
      (enumerate_from i (map (with_walk cfg) es)) acc = Ok (lines, st) ->
    let more :=
      (List.length (flat_map (fun c => c :: reachable cfg (current_depth + 1) c) es)
       + List.length (flat_map (refused cfg (current_depth + 1)) es))%nat in
    (List.length lines <= List.length (fst acc) + more)%nat
    /\ (match_only cfg = false ->
        List.length lines = (List.length (fst acc) + more)%nat).
Proof.
  induction 1 as [|e es He _ IH]; intros i [lines0 stats0] lines st Hrun more.
  - simpl in Hrun. injection Hrun as <- <-. subst more. cbn. lia.
  - cbn [map enumerate_from for_each] in Hrun. unfold with_walk at 1 in Hrun.
    rewrite visit_eq in Hrun.
    destruct (name_search cfg e) as [nm|ex]; [|discriminate].
    cbn [bind] in Hrun. subst more. cbn [flat_map fst].
    rewrite !length_app. cbn [List.length].
    destruct (is_dir e) eqn:Hd.
    + destruct (walk_tree cfg e _ _) as [[sl ss]|ex] eqn:Hw; [|discriminate].
      cbn [bind] in Hrun. apply IH in Hrun. cbn [fst] in Hrun.
      destruct (He _ _ _ _ Hw) as [Hle Heq]. unfold room in Hle, Heq.
      unfold emitted in Hrun. destruct (match_only cfg); cbn [negb orb] in Hrun.
      * split; [|discriminate].
        destruct (_ || _) in Hrun; rewrite length_app in Hrun;
          cbn [List.length] in Hrun; lia.
      * rewrite length_app in Hrun. cbn [List.length] in Hrun.
        specialize (Heq eq_refl). lia.
    + cbn [bind] in Hrun. apply IH in Hrun. cbn [fst] in Hrun.
      rewrite (reachable_file _ _ _ Hd), (refused_file _ _ _ Hd).
      cbn [List.length].
      unfold emitted in Hrun. destruct (match_only cfg); cbn [negb orb] in Hrun.
      * split; [|discriminate].
        destruct (_ || _) in Hrun; rewrite length_app in Hrun;
          cbn [List.length] in Hrun; lia.
      * rewrite length_app in Hrun. cbn [List.length] in Hrun. lia.
Qed.

Lemma walk_line_room (cfg : Config) (d : node) :
  forall p depth lines st,
    walk_tree cfg d p depth = Ok (lines, st) ->
    (List.length lines <= room cfg depth d)%nat
    /\ (match_only cfg = false -> List.length lines = room cfg depth d).
Proof.
  induction d as [name data|name|name children IH] using node_ind;
    intros p depth lines st Hrun; unfold room.
  - simpl in *. destruct (depth_cut cfg depth); [|discriminate].
    injection Hrun as <- <-. cbn. lia.
  - simpl in *. destruct (depth_cut cfg depth); injection Hrun as <- <-; cbn; lia.
  - rewrite walk_tree_dir in Hrun.
    destruct (depth_cut cfg depth) eqn:Hcut.
    + injection Hrun as <- <-. simpl. rewrite Hcut. cbn. lia.
    + apply for_each_line_count in Hrun; [|now apply entries_all].
      cbn [fst List.length] in Hrun.
      rewrite (Permutation_length (reachable_dir cfg depth name children Hcut)).
      rewrite (Permutation_length (refused_dir cfg depth name children Hcut)).
      exact Hrun.
Qed.

(** X9.  A walk puts out at most one line for each entry it counts and one
    notice for each listing it is refused, and without [match_only]
    exactly that many. *)
Theorem walk_line_count (cfg : Config) (d : node) (prefix : string)
    (current_depth : Z) (lines : list string) (st : Stats) :
  walk_tree cfg d prefix current_depth = Ok (lines, st) ->
  Z.of_nat (List.length lines)
  <= dirs st + files st + Z.of_nat (List.length (refused cfg current_depth d))
  /\ (match_only cfg = false ->
      Z.of_nat (List.length lines)
      = dirs st + files st + Z.of_nat (List.length (refused cfg current_depth d))).
Proof.
  intros Hrun.
  destruct (walk_line_room cfg d _ _ _ _ Hrun) as [Hle Heq]. unfold room in *.
  pose proof (files_dirs_length cfg (reachable cfg current_depth d)) as Hlen.
  rewrite <- (walk_tally _ _ _ _ _ _ Hrun) in Hlen.
  split; [lia|]. intros Hmo. specialize (Heq Hmo). lia.
Qed.

(** ** The prefix *)

Lemma append_assoc (s t u : string) : (s ++ t) ++ u = s ++ (t ++ u).
Proof. induction s as [|c s IH]; simpl; [reflexivity|now rewrite IH]. Qed.

Lemma append_nil_r (s : string) : s ++ "" = s.
Proof. induction s as [|c s IH]; simpl; [reflexivity|now rewrite IH]. Qed.

Lemma line_for_prefix (cfg : Config) (p q : string) (i n : Z) (e : node)
    (nm : bool) :
  line_for cfg (p ++ q) i n e nm = p ++ line_for cfg q i n e nm.
Proof. unfold line_for, entry_line. apply append_assoc. Qed.

Lemma for_each_prefix (cfg : Config) (p q : string) (current_depth n : Z)
    (es : list node) :
  Forall (fun e => forall q' d,
            walk_tree cfg e (p ++ q') d = indent p (walk_tree cfg e q' d)) es ->
  forall i lines0 stats0,
    for_each cfg (p ++ q) current_depth n
      (enumerate_from i (map (with_walk cfg) es))
      (map (String.append p) lines0, stats0)
    = indent p
        (for_each cfg q current_depth n
           (enumerate_from i (map (with_walk cfg) es)) (lines0, stats0)).
Proof.
  induction 1 as [|e es He _ IH]; intros i lines0 stats0; [reflexivity|].
  cbn [map enumerate_from for_each]. unfold with_walk at 1 3.
  rewrite !visit_eq.
  destruct (name_search cfg e) as [nm|ex]; [|reflexivity]. cbn [bind].
  unfold next_prefix_of. rewrite append_assoc.
  destruct (is_dir e).
  - rewrite He.
    destruct (walk_tree cfg e _ _) as [[sl ss]|ex]; [|reflexivity].
    cbn [indent bind]. rewrite <- IH. f_equal. f_equal.
    rewrite map_app. f_equal.
    destruct (emitted _ _ _ _); [|reflexivity].
    cbn [map]. now rewrite line_for_prefix.
  - cbn [bind]. rewrite <- IH. f_equal. f_equal.
    rewrite map_app. f_equal.
    destruct (emitted _ _ _ _); [|reflexivity].
    cbn [map]. now rewrite line_for_prefix.
Qed.

(** X10.  The prefix of a walk is only put in front of its lines: the walk
    with the prefix [p ++ q] gives the lines of the walk with the prefix
    [q], each with [p] in front, and the same counters; it raises when that
    one does. *)
Theorem walk_prefix_in_front (cfg : Config) (d : node) (p q : string)
    (current_depth : Z) :
  walk_tree cfg d (p ++ q) current_depth
  = indent p (walk_tree cfg d q current_depth).
Proof.
  revert q current_depth.
  induction d as [name data|name|name children IH] using node_ind;
    intros q depth.
  - simpl. now destruct (depth_cut cfg depth).
  - simpl. destruct (depth_cut cfg depth); [reflexivity|].
    cbn [indent map app]. unfold denied_line. now rewrite append_assoc.
  - rewrite !walk_tree_dir. destruct (depth_cut cfg depth); [reflexivity|].
    apply (for_each_prefix cfg p q depth _ (entries cfg children)
             (entries_all _ cfg children IH) 0 [] zero_stats).
Qed.

(** ** What the listing contributes *)

Lemma insert_by_first {A : Type} (key : A -> bool * string) (x : A) (l : list A) :
  Forall (key_le key x) l -> insert_by key x l = x :: l.
Proof.
  destruct l as [|y l]; [reflexivity|].
  intros H. apply Forall_inv in H. unfold key_le in H. cbn [insert_by].
  now rewrite H.
Qed.

Lemma filter_insert_by {A : Type} (key : A -> bool * string) (f : A -> bool)
    (x : A) (l : list A) :
  StronglySorted (key_le key) l ->
  filter f (insert_by key x l)
  = if f x then insert_by key x (filter f l) else filter f l.
Proof.
  induction 1 as [|y l Hl IH Hy]; cbn [insert_by filter].
  - now destruct (f x).
  - destruct (key_leb (key x) (key y)) eqn:Hxy.
    + cbn [filter]. destruct (f x); [|reflexivity].
      destruct (f y).
      * cbn [insert_by]. now rewrite Hxy.
      * symmetry. apply insert_by_first.
        apply Forall_forall. intros z Hz. apply filter_In in Hz as [Hz _].
        rewrite Forall_forall in Hy. unfold key_le.
        eapply key_leb_trans; [exact Hxy|]. now apply Hy.
    + cbn [filter]. rewrite IH. destruct (f y), (f x); try reflexivity.
      cbn [insert_by]. now rewrite Hxy.
Qed.

Lemma filter_sorted_by {A : Type} (key : A -> bool * string) (f : A -> bool)
    (l : list A) :
  filter f (sorted_by key l) = sorted_by key (filter f l).
Proof.
  induction l as [|x l IH]; [reflexivity|].
  cbn [sorted_by filter].
  rewrite filter_insert_by by apply sorted_by_sorted.
  rewrite IH. now destruct (f x).
Qed.

(** X11.  The children that do not pass the filters of a walk (hidden ones
    without [show_hidden], files with [dirs_only]) have no part in it: the
    walk of a listing is the walk of the listing without them, lines and
    counters alike, and the name of the directory walked has no part
    either. *)
Theorem walk_ignores_filtered_children (cfg : Config) (name name' : string)
    (children : list node) (prefix : string) (current_depth : Z) :
  walk_tree cfg (Dir name (Some children)) prefix current_depth
  = walk_tree cfg (Dir name' (Some (filter (shown cfg) children))) prefix
      current_depth.
Proof.
  assert (Hentries : entries cfg (filter (shown cfg) children)
                     = entries cfg children).
  { rewrite !entries_filter, <- filter_sorted_by, filter_filter.
    apply filter_ext. intros a. now destruct (shown cfg a). }
  rewrite !walk_tree_dir, Hentries.
  reflexivity.
Qed.

Lemma key_leb_antisym (k1 k2 : bool * string) :
  key_leb k1 k2 = true -> key_leb k2 k1 = true -> k1 = k2.
Proof.
  destruct k1 as [[|] s1], k2 as [[|] s2]; unfold key_leb; cbn [fst snd];
    try discriminate; intros H1 H2; f_equal; now apply String.leb_antisym.
Qed.

Lemma sorted_unique {A : Type} (key : A -> bool * string) (l1 : list A) :
  forall l2,
    StronglySorted (key_le key) l1 ->
    StronglySorted (key_le key) l2 ->
    Permutation l1 l2 ->
    NoDup (map key l1) ->
    l1 = l2.
Proof.
  induction l1 as [|x l1 IH]; intros l2 H1 H2 Hperm Hnd.
  - apply Permutation_nil in Hperm. now subst.
  - destruct l2 as [|y l2];
      [apply Permutation_sym, Permutation_nil in Hperm; discriminate|].
    apply StronglySorted_inv in H1 as [H1 Hx].
    apply StronglySorted_inv in H2 as [H2 Hy].
    rewrite Forall_forall in Hx, Hy.
    assert (Hxy : x = y).
    { assert (In x (y :: l2)) as Hin1
        by (apply (Permutation_in _ Hperm); now left).
      assert (In y (x :: l1)) as Hin2
        by (apply (Permutation_in _ (Permutation_sym Hperm)); now left).
      destruct Hin1 as [E|Hin1]; [now subst|].
      destruct Hin2 as [E|Hin2]; [now subst|].
      exfalso. apply NoDup_cons_iff in Hnd as [Hnotin _]. apply Hnotin.
      assert (key x = key y) as ->
        by (apply key_leb_antisym; [now apply Hx|now apply Hy]).
      now apply in_map. }
    subst y. f_equal. apply IH; auto.
    + now apply Permutation_cons_inv in Hperm.
    + now apply NoDup_cons_iff in Hnd.
Qed.

Lemma sorted_by_listing_order (l1 l2 : list node) :
  Permutation l1 l2 ->
  NoDup (map sort_key l1) ->
  sorted_by sort_key l1 = sorted_by sort_key l2.
Proof.
  intros Hperm Hnd. apply (sorted_unique sort_key).
  - apply sorted_by_sorted.
  - apply sorted_by_sorted.
  - rewrite <- (sorted_by_perm sort_key l1), <- (sorted_by_perm sort_key l2).
    exact Hperm.
  - eapply Permutation_NoDup; [|exact Hnd].
    apply Permutation_map, sorted_by_perm.
Qed.

(** X12.  The order in which the system lists a directory does not show: when
    no two children of a listing are of one kind with names that are equal
    in lower case, the walk of any rearrangement of the listing is the same
    walk. *)
Theorem walk_listing_order (cfg : Config) (name : string)
    (children children' : list node) (prefix : string) (current_depth : Z) :
  Permutation children children' ->
  NoDup (map sort_key children) ->
  walk_tree cfg (Dir name (Some children)) prefix current_depth
  = walk_tree cfg (Dir name (Some children')) prefix current_depth.
Proof.
  intros Hperm Hnd.
  now rewrite !walk_tree_dir, !entries_filter,
    (sorted_by_listing_order children children' Hperm Hnd).
Qed.

(** ** When a walk raises, and when nothing can match *)



Lemma name_hit_not_given (cfg : Config) (e : node) :
  given (name_pattern cfg) = None -> name_hit cfg e = false.
Proof. intros H. unfold name_hit, name_search. now rewrite H. Qed.

Lemma content_hit_not_given (cfg : Config) (e : node) :
  given (search_pattern cfg) = None -> content_hit cfg e = false.
Proof. intros H. unfold content_hit, content_search. now rewrite H. Qed.

(** X14.  A pattern that is left out or empty matches nothing.  With no name
    pattern and no search pattern of at least one character, the walk of a
    directory returns, with no name match and no content match; and with
    [match_only] it then puts out no line of an entry at all. *)
Theorem no_pattern_no_match (cfg : Config) (d : node) (prefix : string)
    (current_depth : Z) :
  given (name_pattern cfg) = None ->
  given (search_pattern cfg) = None ->
  (is_dir d = true ->
   exists lines st, walk_tree cfg d prefix current_depth = Ok (lines, st))
  /\ forall lines st,
       walk_tree cfg d prefix current_depth = Ok (lines, st) ->
       name_matches st = 0 /\ content_matches st = 0
       /\ (match_only cfg = true ->
           lines = []
           \/ (iterdir d = Raise PermissionError /\ lines = [denied_line prefix])).
Proof.
  intros Hn Hs. split.
  - intros Hd.
    assert (name_compiles cfg) as Hname
      by (unfold name_compiles; now rewrite Hn).
    destruct (walk_returns cfg d Hname Hd prefix current_depth) as [[lines st] H].
    now exists lines, st.
  - intros lines st Hrun.
    pose proof (walk_tally _ _ _ _ _ _ Hrun) as Hst.
    split; [|split].
    + rewrite Hst. apply count_none. intros e _. now apply name_hit_not_given.
    + rewrite Hst. apply count_none. intros e _. now apply content_hit_not_given.
    + intros Hmo. apply (walk_no_match cfg d prefix current_depth lines st Hmo Hrun).
      intros e _. split;
        [now apply name_hit_not_given|now apply content_hit_not_given].
Qed.

(** ** The name pattern *)

(** X15.  Without [is_regex] the name pattern is one literal, commas and
    blanks included: the name of an entry matches exactly when the whole
    pattern occurs somewhere in it (up to case with [ignore_case]), which is
    when [findall] would find it there. *)
Theorem name_pattern_is_one_literal (cfg : Config) (e : node) (p : string) :
  is_regex cfg = false ->
  given (name_pattern cfg) = Some p ->
  name_search cfg e = Ok (Literal.search (ignore_case cfg) p (node_name e))
  /\ (name_hit cfg e = true
      <-> (0 < Literal.occurrences (ignore_case cfg) p (node_name e))%nat)
  /\ (name_hit cfg e = true
      <-> Literal.findall (ignore_case cfg) p (node_name e) <> []).
Proof.
  intros Hrx Hp.
  assert (Hs : name_search cfg e
               = Ok (Literal.search (ignore_case cfg) p (node_name e))).
  { unfold name_search, compile. now rewrite Hp, Hrx. }
  split; [exact Hs|]. unfold name_hit. rewrite Hs. split.
  - apply search_occurrences.
  - apply search_scan.
Qed.

(** ** The text of an entry *)

Lemma holds_here (t post : string) : holds (t ++ post) t.
Proof. now exists "", post. Qed.

Lemma holds_here_two (a b post : string) : holds (a ++ b ++ post) (a ++ b).
Proof. exists "", post. cbn [String.append]. now rewrite append_assoc. Qed.

Lemma holds_refl (t : string) : holds t t.
Proof. exists "", "". cbn [String.append]. now rewrite append_nil_r. Qed.

Lemma holds_app (s t u : string) : holds t u -> holds (s ++ t) u.
Proof.
  intros (pre & post & ->). exists (s ++ pre), post. now rewrite append_assoc.
Qed.

Lemma ends_with_end (s u : string) : ends_with (s ++ u) u.
Proof. now exists s. Qed.

Lemma ends_with_app (s t u : string) : ends_with t u -> ends_with (s ++ t) u.
Proof. intros (pre & ->). exists (s ++ pre). now rewrite append_assoc. Qed.

Ltac find_held :=
  repeat first [apply holds_refl | apply holds_here | apply holds_here_two
               | apply holds_app].

Ltac find_end :=
  repeat first [apply ends_with_end | apply ends_with_app].

(** X16.  The text [format_entry] gives always holds the name, with a slash
    after it for a directory, and either is the bare name or ends with the
    reset code, so that no style runs on into what is printed next. *)
Theorem format_entry_shape (name : string) (is_d : bool) (match_count : Z)
    (snippet : string) (name_matched search_active : bool) :
  holds (format_entry name is_d match_count snippet name_matched search_active)
    name
  /\ (is_d = true ->
      holds (format_entry name is_d match_count snippet name_matched search_active)
        (name ++ "/"))
  /\ (format_entry name is_d match_count snippet name_matched search_active = name
      \/ ends_with
           (format_entry name is_d match_count snippet name_matched search_active)
           Colors.RESET).
Proof.
  unfold format_entry.
  destruct name_matched, is_d, (0 <? match_count), search_active;
    cbn [andb]; cbv beta iota zeta;
    (split; [find_held|split; [try discriminate; intros _; find_held|]]);
    first [left; reflexivity | right; find_end].
Qed.

(** ** [print_tree] and [main] *)

Lemma walk_raises_on_bad_name_regex_general (cfg : Config) (name : string)
    (children : list node) (prefix : string) (current_depth : Z) (p : string) :
  given (name_pattern cfg) = Some p ->
  is_regex cfg = true ->
  re_compile p (ignore_case cfg) = None ->
  depth_cut cfg current_depth = false ->
  entries cfg children <> [] ->
  walk_tree cfg (Dir name (Some children)) prefix current_depth = Raise ReError.
Proof.
  intros Hp Hrx Hc Hcut Hne. rewrite walk_tree_dir, Hcut.
  destruct (entries cfg children) as [|e es]; [congruence|].
  cbn [map enumerate enumerate_from for_each]. unfold with_walk at 1.
  now rewrite visit_eq, (name_search_raises cfg e p Hp Hrx Hc).
Qed.


(** X17.  [print_tree] prints the root before it walks.  When the walk raises,
    the root line is all that was printed; otherwise the lines of the walk
    follow, then an empty line and the summary of the counters, which are
    the counts of what the walk reaches; and on a directory, without
    [is_regex], it always gets there. *)
Theorem print_tree_root_first (directory_text : string) (directory : node)
    (cfg : Config) :
  (forall printed ex,
     print_tree directory_text directory cfg = (printed, Some ex) ->
     printed = [root_line directory_text]
     /\ walk_tree cfg directory "" 0 = Raise ex)
  /\ (forall printed,
        print_tree directory_text directory cfg = (printed, None) ->
        exists lines st,
          walk_tree cfg directory "" 0 = Ok (lines, st)
          /\ printed
             = (root_line directory_text :: lines ++ [""; summary_line cfg st])%list
          /\ st = tally cfg (reachable cfg 0 directory))
  /\ (is_dir directory = true -> is_regex cfg = false ->
      exists printed, print_tree directory_text directory cfg = (printed, None)).
Proof.
  unfold print_tree. split; [|split].
  - intros printed ex.
    destruct (walk_tree cfg directory "" 0) as [[lines st]|e]; [discriminate|].
    intros H. injection H as <- <-. now split.
  - intros printed.
    destruct (walk_tree cfg directory "" 0) as [[lines st]|e] eqn:Hw;
      [|discriminate].
    intros H. injection H as <-. exists lines, st.
    split; [reflexivity|]. split; [reflexivity|].
    exact (walk_tally _ _ _ _ _ _ Hw).
  - intros Hd Hrx.
    destruct (walk_returns cfg directory (literal_name_compiles cfg Hrx) Hd "" 0)
      as [[lines st] ->].
    eauto.
Qed.

(** X18.  [main] stops with status 1 before any walk, with the banner alone
    on the standard output and one line on the standard error, when the
    path does not exist, when it is not a directory, and when [regex] is set
    and the pattern it checks (the search pattern, or the name pattern when
    no search pattern is given) does not compile. *)
Theorem main_rejects_before_walk (fs : string -> option (string * node))
    (error_text : string -> string) (args : Args) :
  (fs (arg_directory args) = None ->
   main fs error_text args
   = {| stdout := [BANNER];
        stderr := ["Error: '" ++ arg_directory args ++ "' does not exist"];
        ended := Exited 1 |})
  /\ (forall text d,
        fs (arg_directory args) = Some (text, d) ->
        is_dir d = false ->
        main fs error_text args
        = {| stdout := [BANNER];
             stderr := ["Error: '" ++ arg_directory args ++ "' is not a directory"];
             ended := Exited 1 |})
  /\ (forall text d p,
        fs (arg_directory args) = Some (text, d) ->
        is_dir d = true ->
        arg_regex args = true ->
        given (search_to_validate args) = Some p ->
        re_compile p false = None ->
        main fs error_text args
        = {| stdout := [BANNER];
             stderr := ["Error: Invalid regex pattern: " ++ error_text p];
             ended := Exited 1 |}).
Proof.
  unfold main. split; [|split].
  - now intros ->.
  - intros text d -> ->. reflexivity.
  - intros text d p -> -> -> -> ->. reflexivity.
Qed.



(** X20.  That way is open: with [regex], a search pattern that compiles and
    a name pattern that does not, on a directory with at least one entry to
    show, [main] prints the banner and the root and is ended by [re.error]. *)
Theorem main_unchecked_name_pattern (fs : string -> option (string * node))
    (error_text : string -> string) (args : Args) (text name : string)
    (children : list node) (s p : string) :
  fs (arg_directory args) = Some (text, Dir name (Some children)) ->
  arg_regex args = true ->
  given (arg_search args) = Some s ->
  re_compile s false <> None ->
  given (arg_name args) = Some p ->
  re_compile p (arg_ignore_case args) = None ->
  depth_cut (config_of args) 0 = false ->
  entries (config_of args) children <> [] ->
  main fs error_text args
  = {| stdout := [BANNER; root_line text];
       stderr := [];
       ended := Uncaught ReError |}.
Proof.
  intros Hfs Hrx Hs Hsc Hp Hpc Hcut Hne.
  assert (Hw : walk_tree (config_of args) (Dir name (Some children)) "" 0
               = Raise ReError).
  { apply (walk_raises_on_bad_name_regex_general (config_of args) name children
             "" 0 p); auto. }
  unfold main. rewrite Hfs. cbn [is_dir negb].
  unfold search_to_validate. rewrite Hs. cbn [given].
  assert (PyStr.truthy s = true) as ->.
  { unfold given in Hs. destruct (arg_search args) as [s'|]; [|discriminate].
    destruct (PyStr.truthy s') eqn:Ht; [|discriminate]. now injection Hs as <-. }
  rewrite Hrx. destruct (re_compile s false); [|now contradiction Hsc].
  unfold print_tree. now rewrite Hw.
Qed.

(** ** The depth limit *)

Lemma for_each_max_depth (cfg : Config) (m : Z) (prefix : string)
    (current_depth n : Z) (es : list node) :
  Forall (fun e => is_dir e = true ->
                   forall p,
                     walk_tree (with_max_depth (Some m) cfg) e p (current_depth + 1)
                     = walk_tree (with_max_depth None cfg) e p (current_depth + 1)) es ->
  forall i acc,
    for_each (with_max_depth (Some m) cfg) prefix current_depth n
      (enumerate_from i (map (with_walk (with_max_depth (Some m) cfg)) es)) acc
    = for_each (with_max_depth None cfg) prefix current_depth n
        (enumerate_from i (map (with_walk (with_max_depth None cfg)) es)) acc.
Proof.
  induction 1 as [|e es He _ IH]; intros i [lines0 stats0]; [reflexivity|].
  cbn [map enumerate_from for_each]. unfold with_walk at 1 3.
  rewrite !visit_eq.
  change (name_search (with_max_depth (Some m) cfg) e)
    with (name_search (with_max_depth None cfg) e).
  destruct (name_search (with_max_depth None cfg) e) as [nm|ex]; [|reflexivity].
  cbn [bind]. destruct (is_dir e).
  - rewrite (He eq_refl).
    destruct (walk_tree (with_max_depth None cfg) e _ _) as [[sl ss]|ex];
      [|reflexivity].
    cbn [bind]. apply IH.
  - cbn [bind]. apply IH.
Qed.

Lemma list_max_in (l : list nat) (x : nat) : In x l -> (x <= list_max l)%nat.
Proof.
  induction l as [|y l IH]; [contradiction|].
  cbn [list_max fold_right]. intros [->|H]; [lia|].
  apply IH in H. unfold list_max in H. lia.
Qed.

(** X21.  A depth limit that is not below the number of levels of the tree
    changes nothing: the walk of a directory with such a [max_depth] is the
    walk without [max_depth]. *)
Theorem deep_limit_is_no_limit (cfg : Config) (m : Z) (d : node) :
  is_dir d = true ->
  forall prefix current_depth,
    current_depth + Z.of_nat (levels d) <= m ->
    walk_tree (with_max_depth (Some m) cfg) d prefix current_depth
    = walk_tree (with_max_depth None cfg) d prefix current_depth.
Proof.
  induction d as [name data|name|name children IH] using node_ind;
    intros Hd p depth Hm; [discriminate| |].
  - cbn [walk_tree depth_cut max_depth with_max_depth]. cbn [levels] in Hm.
    assert ((m <=? depth) = false) as -> by (apply Z.leb_gt; lia).
    reflexivity.
  - rewrite !walk_tree_dir.
    change (entries (with_max_depth (Some m) cfg) children)
      with (entries (with_max_depth None cfg) children).
    cbn [depth_cut max_depth with_max_depth].
    cbn [levels] in Hm.
    assert ((m <=? depth) = false) as -> by (apply Z.leb_gt; lia).
    apply for_each_max_depth.
    apply Forall_forall. intros e He Hed q.
    apply entries_in in He as [He _].
    rewrite Forall_forall in IH. apply (IH e He Hed).
    pose proof (list_max_in (map levels children) (levels e) (in_map levels _ _ He)).
    lia.
Qed.

(** ** The bytes [is_binary_file] reads *)

(** X22.  [is_binary_file] reads the first 1024 bytes and no more: what
    follows them, null bytes included, does not change its answer. *)
Theorem binary_test_reads_1024 (name : string) (head tail : list byte) :
  (1024 <= List.length head)%nat ->
  is_binary_file (File name (Some (head ++ tail)%list))
  = is_binary_file (File name (Some head)).
Proof.
  intros H. unfold is_binary_file. cbn [open_read].
  rewrite firstn_app.
  replace (1024 - List.length head)%nat with 0%nat by lia.
  cbn [firstn]. now rewrite app_nil_r.
Qed.

(** ** The counters of a listing in two parts *)

Lemma reachable_app (cfg : Config) (depth : Z) (name1 name2 name : string)
    (a b : list node) :
  reachable cfg depth (Dir name (Some (a ++ b)%list))
  = (reachable cfg depth (Dir name1 (Some a))
     ++ reachable cfg depth (Dir name2 (Some b)))%list.
Proof.
  simpl. destruct (depth_cut cfg depth); [reflexivity|]. apply flat_map_app.
Qed.

(** X23.  The counters add up over a listing: the walk of a directory that
    holds the children of two directories returns the sum of the counters
    of their two walks. *)
Theorem walk_stats_add_up (cfg : Config) (name name1 name2 : string)
    (a b : list node) (p p1 p2 : string) (current_depth : Z)
    (lines lines1 lines2 : list string) (st st1 st2 : Stats) :
  walk_tree cfg (Dir name1 (Some a)) p1 current_depth = Ok (lines1, st1) ->
  walk_tree cfg (Dir name2 (Some b)) p2 current_depth = Ok (lines2, st2) ->
  walk_tree cfg (Dir name (Some (a ++ b)%list)) p current_depth = Ok (lines, st) ->
  st = add_stats st1 st2.
Proof.
  intros H1 H2 H.
  rewrite (walk_tally _ _ _ _ _ _ H), (walk_tally _ _ _ _ _ _ H1),
    (walk_tally _ _ _ _ _ _ H2).
  now rewrite (reachable_app cfg current_depth name1 name2), tally_app.
Qed.

(** ** How many matches fit *)

Lemma total_matches_fits (ic : bool) (k : string) (lines : list string) :
  total_matches [Lit ic k] lines * Z.of_nat (String.length k)
  <= Z.of_nat (total_length lines).
Proof.
  induction lines as [|l lines IH]; [cbn; lia|].
  rewrite total_matches_cons. unfold total_length in *.
  cbn [map fold_right findall].
  pose proof (proj2 (findall_literal_items ic k l)) as H.
  nia.
Qed.

(** X24.  The matches of a keyword lie side by side in the lines: for a
    pattern that is one keyword, without [is_regex], the count of a file
    times the length of the keyword is at most the number of characters of
    its lines. *)
Theorem literal_count_fits (filepath : node) (pat k : string) (ic : bool)
    (data : list byte) :
  keywords pat false = [k] ->
  open_read filepath = Ok data ->
  fst (search_file filepath pat false ic) * Z.of_nat (String.length k)
  <= Z.of_nat (total_length (readlines data)).
Proof.
  intros Hk Hopen.
  destruct (search_file_cases filepath pat false ic)
    as [->|(data' & cs & Hopen' & _ & Hcs & ->)].
  - cbn. lia.
  - rewrite Hopen in Hopen'. injection Hopen' as <-.
    rewrite compile_all_literal, Hk in Hcs. injection Hcs as <-.
    rewrite scan_lines_count. apply total_matches_fits.
Qed.

End MoreProperties.

(** ** The properties at work on small inputs *)

(** In [notes] the pattern "zz,ab" first matches with its second keyword on
    the first line. *)
Lemma search_file_snippet_first_match_witness :
  snd (search_file (rt := Plain.runtime) notes "zz,ab" false false)
  = snippet_of "ab" ("ab ab" ++ nl).
Proof.
  exact (search_file_snippet_first_match (rt := Plain.runtime) notes "zz,ab"
           false false
           (Plain.bytes_of ("ab ab" ++ nl ++ "ab-ab" ++ nl ++ "xabab" ++ nl))
           [] ["ab-ab" ++ nl; "xabab" ++ nl] ("ab ab" ++ nl)
           [Lit false "zz"] [] (Lit false "ab") "ab" ["ab"]
           eq_refl eq_refl eq_refl eq_refl
           (Forall_nil _)
           (Forall_cons (Lit false "zz") (eq_refl : findall (Lit false "zz") ("ab ab" ++ nl) = [])
              (Forall_nil _))
           eq_refl).
Defined.

(** A short line is shown whole. *)
Lemma snippet_line_is_cut_witness :
  exists shown_line,
    snippet_of "ab" "  ab cd  " = "['" ++ "ab" ++ "' => '" ++ shown_line ++ "']"
    /\ shown_line = "ab cd".
Proof.
  destruct (snippet_line_is_cut "ab" "  ab cd  ") as (t & Heq & _ & Hshort & _).
  exists t. split; [exact Heq|]. apply Hshort. cbn. lia.
Defined.

(** "EAD" is in "README" with and without [ignore_case]. *)
Lemma ignore_case_finds_no_less_witness :
  search (rt := Plain.runtime) (Lit true "EAD") "README" = true.
Proof.
  exact (proj2 (ignore_case_finds_no_less (rt := Plain.runtime) notes "EAD")
           "README" eq_refl).
Defined.

(** The pattern " , ," holds no keyword. *)
Lemma blank_pattern_finds_nothing_witness :
  search_file (rt := Plain.runtime) notes " , ," false false = (0, "").
Proof.
  refine (proj1 (blank_pattern_finds_nothing (rt := Plain.runtime) " , ," false _)
            notes).
  intros q [<-|[<-|[<-|[]]]]; reflexivity.
Defined.

(** "(" is no regular expression. *)
Lemma bad_search_regex_finds_nothing_witness :
  search_file (rt := Plain.runtime) notes "(" true false = (0, "").
Proof.
  exact (proj1 (bad_search_regex_finds_nothing (rt := Plain.runtime) "(" false
                  eq_refl) notes).
Defined.

(** [backup.tar.GZ] has the extension GZ. *)
Lemma extension_after_last_dot_witness :
  suffix (File ("backup.tar" ++ "." ++ "GZ") (Some [])) = "." ++ "GZ"
  /\ search_file (rt := Plain.runtime) (File ("backup.tar" ++ "." ++ "GZ") (Some []))
       "x" false false = (0, "").
Proof.
  assert (H1 : "backup.tar" <> "") by discriminate.
  assert (H2 : "GZ" <> "") by discriminate.
  destruct (proj1 (extension_after_last_dot (rt := Plain.runtime) "backup.tar"
                     "GZ" (Some []) eq_refl) H1 H2) as [Hsuf Hex].
  split; [exact Hsuf|]. exact (Hex eq_refl "x" false false).
Defined.

(** The counters of the walk of [small_tree]. *)
Lemma walk_stats_bounds_witness :
  0 <= 0 <= 1 + 2 /\ 0 <= 0 <= 2.
Proof.
  exact (proj2 (proj2
    (walk_stats_bounds (rt := Plain.runtime) plain_cfg small_tree "" 0
       [entry_line "" BRANCH (format_entry "b" true 0 "" false false);
        entry_line PIPE LAST_BRANCH "c";
        entry_line "" LAST_BRANCH "a"]
       {| dirs := 1; files := 2; name_matches := 0; content_matches := 0 |}
       eq_refl))).
Defined.

(** Three entries, three lines. *)
Lemma walk_line_count_witness :
  Z.of_nat 3 = 1 + 2 + Z.of_nat 0.
Proof.
  exact (proj2
    (walk_line_count (rt := Plain.runtime) plain_cfg small_tree "" 0
       [entry_line "" BRANCH (format_entry "b" true 0 "" false false);
        entry_line PIPE LAST_BRANCH "c";
        entry_line "" LAST_BRANCH "a"]
       {| dirs := 1; files := 2; name_matches := 0; content_matches := 0 |}
       eq_refl) eq_refl).
Defined.

(** A file [b] and a directory [a], listed either way round. *)
Lemma walk_listing_order_witness :
  walk_tree (rt := Plain.runtime) plain_cfg
    (Dir "root" (Some [File "b" None; Dir "a" None])) "" 0
  = walk_tree (rt := Plain.runtime) plain_cfg
      (Dir "root" (Some [Dir "a" None; File "b" None])) "" 0.
Proof.
  refine (walk_listing_order (rt := Plain.runtime) plain_cfg "root"
            [File "b" None; Dir "a" None] [Dir "a" None; File "b" None] "" 0
            (perm_swap _ _ _) _).
  constructor.
  - intros [H|[]]. discriminate H.
  - constructor; [intros []|constructor].
Defined.


(** [shinju -m] with no pattern shows no entry of [small_tree]. *)
Lemma no_pattern_no_match_witness :
  @nil string = []
  \/ (iterdir small_tree = Raise PermissionError /\ @nil string = [denied_line ""]).
Proof.
  exact (proj2 (proj2
    (proj2 (no_pattern_no_match (rt := Plain.runtime) prune_cfg small_tree "" 0
              eq_refl eq_refl)
       [] {| dirs := 1; files := 2; name_matches := 0; content_matches := 0 |}
       eq_refl)) eq_refl).
Defined.

(** The name pattern "a,b" is in the name "xa,by". *)
Lemma name_pattern_is_one_literal_witness :
  name_search (rt := Plain.runtime) comma_name_cfg (File "xa,by" None) = Ok true.
Proof.
  exact (proj1 (name_pattern_is_one_literal (rt := Plain.runtime) comma_name_cfg
                  (File "xa,by" None) "a,b" eq_refl eq_refl)).
Defined.

(** A directory shows with its slash. *)
Lemma format_entry_shape_witness :
  holds (format_entry "src" true 0 "" false false) ("src" ++ "/").
Proof.
  exact (proj1 (proj2 (format_entry_shape "src" true 0 "" false false)) eq_refl).
Defined.

(** [print_tree] of [small_tree] gets to its summary. *)
Lemma print_tree_root_first_witness :
  exists printed,
    print_tree (rt := Plain.runtime) "/tmp/root" small_tree plain_cfg
    = (printed, None).
Proof.
  exact (proj2 (proj2 (print_tree_root_first (rt := Plain.runtime) "/tmp/root"
                         small_tree plain_cfg)) eq_refl eq_refl).
Defined.

(** A path that does not exist. *)
Lemma main_rejects_before_walk_witness :
  main (rt := Plain.runtime) no_fs (fun p => p) crash_args
  = {| stdout := [BANNER];
       stderr := ["Error: '" ++ "proj" ++ "' does not exist"];
       ended := Exited 1 |}.
Proof.
  exact (proj1 (main_rejects_before_walk (rt := Plain.runtime) no_fs (fun p => p)
                  crash_args) eq_refl).
Defined.


Lemma main_unchecked_name_pattern_witness :
  main (rt := Plain.runtime) crash_fs (fun p => p) crash_args
  = {| stdout := [BANNER; root_line "/home/u/proj"];
       stderr := [];
       ended := Uncaught ReError |}.
Proof.
  refine (main_unchecked_name_pattern (rt := Plain.runtime) crash_fs (fun p => p)
            crash_args "/home/u/proj" "proj" [File "a" (Some [])] "x" "("
            eq_refl eq_refl eq_refl _ eq_refl eq_refl eq_refl _);
    discriminate.
Defined.

(** [small_tree] has two levels: [-L 2] is no limit. *)
Lemma deep_limit_is_no_limit_witness :
  walk_tree (rt := Plain.runtime) (with_max_depth (Some 2) plain_cfg) small_tree "" 0
  = walk_tree (rt := Plain.runtime) (with_max_depth None plain_cfg) small_tree "" 0.
Proof.
  refine (deep_limit_is_no_limit (rt := Plain.runtime) plain_cfg 2 small_tree
            eq_refl "" 0 _).
  discriminate.
Defined.

(** A null byte after 1024 letters is not seen. *)
Lemma binary_test_reads_1024_witness :
  is_binary_file (File "long.txt" (Some (repeat x61 1024 ++ [x00])%list))
  = is_binary_file (File "long.txt" (Some (repeat x61 1024))).
Proof.
  refine (binary_test_reads_1024 "long.txt" (repeat x61 1024) [x00] _).
  rewrite repeat_length. apply Nat.le_refl.
Defined.

(** A file and a refused directory, apart and together. *)
Lemma walk_stats_add_up_witness :
  {| dirs := 1; files := 1; name_matches := 0; content_matches := 0 |}
  = add_stats
      {| dirs := 0; files := 1; name_matches := 0; content_matches := 0 |}
      {| dirs := 1; files := 0; name_matches := 0; content_matches := 0 |}.
Proof.
  exact (walk_stats_add_up (rt := Plain.runtime) prune_cfg "ab" "a" "b"
           [File "f" None] [Dir "g" None] "" "" "" 0 [] [] []
           {| dirs := 1; files := 1; name_matches := 0; content_matches := 0 |}
           {| dirs := 0; files := 1; name_matches := 0; content_matches := 0 |}
           {| dirs := 1; files := 0; name_matches := 0; content_matches := 0 |}
           eq_refl eq_refl eq_refl).
Defined.

(** Six matches of two characters in the lines of [notes]. *)
Lemma literal_count_fits_witness :
  fst (search_file (rt := Plain.runtime) notes "ab" false false)
  * Z.of_nat (String.length "ab")
  <= Z.of_nat
       (total_length
          (readlines (Runtime := Plain.runtime)
             (Plain.bytes_of ("ab ab" ++ nl ++ "ab-ab" ++ nl ++ "xabab" ++ nl)))).
Proof.
  exact (literal_count_fits (rt := Plain.runtime) notes "ab" "ab" false
           (Plain.bytes_of ("ab ab" ++ nl ++ "ab-ab" ++ nl ++ "xabab" ++ nl))
           eq_refl eq_refl).
Defined.
